(** * NITRATES, archive/rates_only_quads_mle.py: rate-only maximum-likelihood
      search over detector quadrants

    A shallow embedding of the numerical core of
    [nitrates/archive/rates_only_quads_mle.py]: the quadrant binning of
    events, the profiled-background Poisson likelihood, the spectral template
    interpolator, the objective handed to the simplex minimiser, the time-bin
    sweep of [main] and its trials correction.

    Number model.  NumPy's float64 values are modelled by [npfloat]: a real
    number, or one of the three IEEE special values NaN, +inf, -inf.
    Arithmetic on finite values is exact (no rounding, no overflow, one
    unsigned zero); arithmetic on special values follows the IEEE rules that
    NumPy applies (x/0, 0/0, 0*inf, inf-inf, log 0, sqrt of a negative number,
    comparisons with NaN).  Times and energies of events, which are only
    compared and subtracted, are plain reals; so are the edges of the time
    bins, of which only the properties that do not depend on the rounding of
    [np.arange] are stated: lengths, steps, widths and strict orderings, not
    equalities between computed edges. *)

From Stdlib Require Import Reals Lra Lia List ZArith Bool Zfloor Sorted.
Import ListNotations.

Local Open Scope R_scope.

(** ** Boolean comparisons on the reals *)

Definition Rltb (x y : R) : bool := if Rlt_dec x y then true else false.
Definition Rleb (x y : R) : bool := if Rle_dec x y then true else false.
Definition Reqb (x y : R) : bool := if Req_dec_T x y then true else false.

(** ** NumPy floating-point values *)

Inductive npfloat : Type :=
| NaN : npfloat
| PInf : npfloat
| NInf : npfloat
| Fin : R -> npfloat.

Declare Scope np_scope.
Delimit Scope np_scope with np.
Bind Scope np_scope with npfloat.

Module Np.

Definition is_finite (x : npfloat) : Prop :=
  match x with Fin _ => True | _ => False end.

Definition is_nan (x : npfloat) : Prop :=
  match x with NaN => True | _ => False end.

(** The infinity whose sign is that of [r]; [r] is not zero where used. *)
Definition inf_of_sign (r : R) : npfloat :=
  if Rltb r 0 then NInf else PInf.

Definition neg (x : npfloat) : npfloat :=
  match x with
  | NaN => NaN
  | PInf => NInf
  | NInf => PInf
  | Fin r => Fin (- r)
  end.

Definition add (x y : npfloat) : npfloat :=
  match x, y with
  | NaN, _ | _, NaN => NaN
  | PInf, NInf | NInf, PInf => NaN
  | PInf, _ | _, PInf => PInf
  | NInf, _ | _, NInf => NInf
  | Fin a, Fin b => Fin (a + b)
  end.

Definition sub (x y : npfloat) : npfloat := add x (neg y).

Definition mul (x y : npfloat) : npfloat :=
  match x, y with
  | NaN, _ | _, NaN => NaN
  | Fin a, Fin b => Fin (a * b)
  | Fin a, PInf | PInf, Fin a =>
      if Reqb a 0 then NaN else inf_of_sign a
  | Fin a, NInf | NInf, Fin a =>
      if Reqb a 0 then NaN else inf_of_sign (- a)
  | PInf, PInf | NInf, NInf => PInf
  | PInf, NInf | NInf, PInf => NInf
  end.

(** Division as NumPy performs it (a warning, never an exception): a
    non-zero number over zero is an infinity, zero over zero is NaN. *)
Definition div (x y : npfloat) : npfloat :=
  match x, y with
  | NaN, _ | _, NaN => NaN
  | Fin a, Fin b =>
      if Reqb b 0
      then (if Reqb a 0 then NaN else inf_of_sign a)
      else Fin (a / b)
  | Fin _, PInf | Fin _, NInf => Fin 0
  | PInf, Fin b => if Rltb b 0 then NInf else PInf
  | NInf, Fin b => if Rltb b 0 then PInf else NInf
  | PInf, PInf | PInf, NInf | NInf, PInf | NInf, NInf => NaN
  end.

Definition abs (x : npfloat) : npfloat :=
  match x with
  | NaN => NaN
  | PInf | NInf => PInf
  | Fin r => Fin (Rabs r)
  end.

(** [x ** 2] and [np.square x]. *)
Definition square (x : npfloat) : npfloat := mul x x.

Definition sqrt (x : npfloat) : npfloat :=
  match x with
  | NaN | NInf => NaN
  | PInf => PInf
  | Fin r => if Rltb r 0 then NaN else Fin (R_sqrt.sqrt r)
  end.

Definition log (x : npfloat) : npfloat :=
  match x with
  | NaN | NInf => NaN
  | PInf => PInf
  | Fin r =>
      if Rltb r 0 then NaN else if Reqb r 0 then NInf else Fin (ln r)
  end.

Definition exp (x : npfloat) : npfloat :=
  match x with
  | NaN => NaN
  | PInf => PInf
  | NInf => Fin 0
  | Fin r => Fin (Rtrigo_def.exp r)
  end.

(** [10.0 ** x]. *)
Definition pow10 (x : npfloat) : npfloat :=
  match x with
  | NaN => NaN
  | PInf => PInf
  | NInf => Fin 0
  | Fin r => Fin (Rpower 10 r)
  end.

(** Comparisons; every comparison with NaN is false. *)
Definition ltb (x y : npfloat) : bool :=
  match x, y with
  | NaN, _ | _, NaN => false
  | Fin a, Fin b => Rltb a b
  | NInf, NInf | PInf, _ => false
  | NInf, _ | Fin _, PInf => true
  | Fin _, NInf => false
  end.

Definition leb (x y : npfloat) : bool :=
  match x, y with
  | NaN, _ | _, NaN => false
  | Fin a, Fin b => Rleb a b
  | NInf, _ | _, PInf => true
  | PInf, _ | Fin _, NInf => false
  end.

Definition gtb (x y : npfloat) : bool := ltb y x.
Definition geb (x y : npfloat) : bool := leb y x.

(** [np.sum] of a one-dimensional array. *)
Definition sum (l : list npfloat) : npfloat :=
  fold_left add l (Fin 0).

End Np.

Notation "x + y" := (Np.add x y) : np_scope.
Notation "x - y" := (Np.sub x y) : np_scope.
Notation "x * y" := (Np.mul x y) : np_scope.
Notation "x / y" := (Np.div x y) : np_scope.
Notation "- x" := (Np.neg x) : np_scope.
Notation "x <? y" := (Np.ltb x y) : np_scope.
Notation "x <=? y" := (Np.leb x y) : np_scope.
Notation "x >? y" := (Np.gtb x y) : np_scope.
Notation "x >=? y" := (Np.geb x y) : np_scope.

Local Open Scope np_scope.

(** ** Python helpers *)

(** Subscript [l[i]] by an integer as Python and NumPy evaluate it: a negative
    index counts from the end, and an index out of range raises IndexError
    ([None]). *)
Definition py_index {A : Type} (l : list A) (i : Z) : option A :=
  let n := Z.of_nat (length l) in
  if (0 <=? i)%Z then nth_error l (Z.to_nat i)
  else if (- n <=? i)%Z then nth_error l (Z.to_nat (n + i))
  else None.

(** A loop body that may raise, run over a list in order. *)
Fixpoint mapM {A B : Type} (f : A -> option B) (l : list A)
  : option (list B) :=
  match l with
  | [] => Some []
  | a :: t =>
      match f a with
      | None => None
      | Some b =>
          match mapM f t with
          | None => None
          | Some bs => Some (b :: bs)
          end
      end
  end.

Definition bind {A B : Type} (o : option A) (f : A -> option B) : option B :=
  match o with
  | Some a => f a
  | None => None
  end.

Notation "x <- o ;; k" := (bind o (fun x => k))
  (at level 61, o at next level, right associativity).

(** [np.sum] of a boolean mask: the number of entries that are true. *)
Definition count_true {A : Type} (p : A -> bool) (l : list A) : nat :=
  length (filter p l).

(** Element-wise operation on two arrays of one shape. *)
Definition zip_with {A B C : Type} (f : A -> B -> C)
  (l1 : list A) (l2 : list B) : list C :=
  map (fun ab => f (fst ab) (snd ab)) (combine l1 l2).

(** ** Binning engine *)

Record event : Type := mk_event {
  TIME : R;
  ENERGY : R;
  DETX : Z;
  DETY : Z
}.

Definition x_mid : Z := 142.
Definition y_mid : Z := 86.

(** The four quadrant selections of [ev2quad_cnts], in the order of the
    returned array. *)
Definition in_quad (q : nat) (e : event) : bool :=
  match q with
  | 0%nat => (DETX e <? x_mid)%Z && (DETY e <? y_mid)%Z
  | 1%nat => (DETX e <? x_mid)%Z && (DETY e >? y_mid)%Z
  | 2%nat => (DETX e >? x_mid)%Z && (DETY e >? y_mid)%Z
  | _ => (DETX e >? x_mid)%Z && (DETY e <? y_mid)%Z
  end.

Definition ev2quad_cnts (ev : list event) : list nat :=
  [ count_true (in_quad 0) ev;
    count_true (in_quad 1) ev;
    count_true (in_quad 2) ev;
    count_true (in_quad 3) ev ].

(** [start <= t < stop], the mask of one time bin or one energy bin. *)
Definition in_bin (lo hi x : R) : bool := Rleb lo x && Rltb x hi.

Definition get_quad_cnts_tbins (tbins0 tbins1 ebins0 ebins1 : list R)
  (evd : list event) : option (list (list (list nat))) :=
  let ntbins := length tbins0 in
  let nebins := length ebins0 in
  mapM (fun i =>
    t0 <- nth_error tbins0 i ;;
    t1 <- nth_error tbins1 i ;;
    let sig_data := filter (fun e => in_bin t0 t1 (TIME e)) evd in
    mapM (fun j =>
      e0 <- nth_error ebins0 j ;;
      e1 <- nth_error ebins1 j ;;
      let e_bl := fun e => in_bin e0 e1 (ENERGY e) in
      Some (ev2quad_cnts (filter e_bl sig_data)))
      (seq 0 nebins))
    (seq 0 ntbins).

(** Sum of all entries of a three-dimensional count array. *)
Definition sum3 (m : list (list (list nat))) : nat :=
  list_sum (map (fun t => list_sum (map (@list_sum) t)) m).

(** How many of the given bins contain [x]. *)
Definition bins_containing (lo hi : list R) (x : R) : nat :=
  count_true (fun b => in_bin (fst b) (snd b) x) (combine lo hi).

(** How many of the four quadrants select [e]. *)
Definition quads_containing (e : event) : nat :=
  count_true (fun q => in_quad q e) (seq 0 4).

(** ** Profiled likelihood *)

(** The body of [profiled_bkg_llh] for one energy bin: the profiled
    background rate [f_i] and the term [llh] of that bin. *)
Definition profiled_f_i (data_cnts sig_rate sdt off_cnts odt sig2 : npfloat)
  : npfloat :=
  let d_i :=
    Np.sqrt
      (Np.square (sdt * sig2 - odt * off_cnts + Np.square odt * sig_rate)
       - Fin 4 * Np.square odt
         * (sdt * sig2 * sig_rate - data_cnts * sig2
            - odt * off_cnts * sig_rate)) in
  (- (sdt * sig2 - odt * off_cnts + sig_rate * Np.square odt) + d_i)
  / (Fin 2 * Np.square odt).

Definition profiled_llh_i (data_cnts sig_rate sdt off_cnts odt sig2 f_i
  : npfloat) : npfloat :=
  sdt * (sig_rate + f_i)
  - data_cnts * Np.log (sdt * (sig_rate + f_i))
  + Np.square (off_cnts - odt * f_i) / (Fin 2 * sig2)
  - data_cnts * (Fin 1 - Np.log data_cnts).

(** One entry per energy bin of four arrays of one length.  [None] stands
    for arrays of different lengths; NumPy raises ValueError for them, except
    that it repeats an array of length 1, a case that is left out here: the
    properties below are about arrays of one length. *)
Fixpoint broadcast4 (a b c d : list npfloat)
  : option (list (npfloat * npfloat * npfloat * npfloat)) :=
  match a, b, c, d with
  | [], [], [], [] => Some []
  | x :: a', y :: b', z :: c', w :: d' =>
      match broadcast4 a' b' c' d' with
      | Some t => Some ((x, y, z, w) :: t)
      | None => None
      end
  | _, _, _, _ => None
  end.

(** [profiled_bkg_llh (..., ret_f=True)]: the summed likelihood and the
    array [f_i].  [data_cnts], [sig_rate], [off_cnts] and [off_cnts_err] are
    arrays over the energy bins, [sdt] and [odt] are scalars. *)
Definition profiled_bkg_llh_ret_f (data_cnts sig_rate : list npfloat)
  (sdt : npfloat) (off_cnts : list npfloat) (odt : npfloat)
  (off_cnts_err : list npfloat) : option (npfloat * list npfloat) :=
  bins <- broadcast4 data_cnts sig_rate off_cnts off_cnts_err ;;
  let f_i :=
    map (fun '(d, s, o, e) => profiled_f_i d s sdt o odt (Np.square e))
      bins in
  let llh :=
    map (fun '(d, s, o, e) =>
           let sig2 := Np.square e in
           profiled_llh_i d s sdt o odt sig2
             (profiled_f_i d s sdt o odt sig2))
      bins in
  Some (Np.sum llh, f_i).

(** [profiled_bkg_llh (..., ret_f=False)]. *)
Definition profiled_bkg_llh (data_cnts sig_rate : list npfloat)
  (sdt : npfloat) (off_cnts : list npfloat) (odt : npfloat)
  (off_cnts_err : list npfloat) : option npfloat :=
  option_map fst
    (profiled_bkg_llh_ret_f data_cnts sig_rate sdt off_cnts odt off_cnts_err).

Definition rates_llh (data : list npfloat) (nsig : npfloat)
  (sig_e_normed bkg_cnts bkg_err : list npfloat) (sig_dt bkg_dt : npfloat)
  : option npfloat :=
  let sig_rates := map (fun c => (nsig / sig_dt) * c) sig_e_normed in
  profiled_bkg_llh data sig_rates sig_dt bkg_cnts bkg_dt bkg_err.

(** ** Spectral template interpolator *)

Module Npa.

Definition is_nanb (x : npfloat) : bool :=
  match x with NaN => true | _ => false end.

(** The smaller (larger) of two values as [np.min] ([np.max]) reduces an
    array: NaN wins over every number. *)
Definition min2 (x y : npfloat) : npfloat :=
  if is_nanb x || is_nanb y then NaN else if y <? x then y else x.

Definition max2 (x y : npfloat) : npfloat :=
  if is_nanb x || is_nanb y then NaN else if x <? y then y else x.

(** [np.min] and [np.max]; [None] is the ValueError on an empty array. *)
Definition min (l : list npfloat) : option npfloat :=
  match l with
  | [] => None
  | x :: t => Some (fold_left min2 t x)
  end.

Definition max (l : list npfloat) : option npfloat :=
  match l with
  | [] => None
  | x :: t => Some (fold_left max2 t x)
  end.

(** [argmin_from t i best bi]: scan of [t], whose first element has index
    [i], with the smallest value so far [best] at index [bi].  The first
    NaN, if any, is the answer; among equal values the first one is. *)
Fixpoint argmin_from (t : list npfloat) (i : nat) (best : npfloat)
  (bi : nat) : nat :=
  match t with
  | [] => bi
  | x :: t' =>
      if is_nanb best then bi
      else if is_nanb x || (x <? best) then argmin_from t' (S i) x i
      else argmin_from t' (S i) best bi
  end.

(** [np.argmin]; [None] is the ValueError on an empty array. *)
Definition argmin (l : list npfloat) : option nat :=
  match l with
  | [] => None
  | x :: t => Some (argmin_from t 1 x 0)
  end.

(** [np.ones n] and [c * row]. *)
Definition ones (n : nat) : list npfloat := repeat (Fin 1) n.

Definition scale (c : npfloat) (row : list npfloat) : list npfloat :=
  map (fun v => c * v) row.

(** [np.linspace start stop num] for [num >= 2]. *)
Definition linspace (start stop : R) (num : nat) : list npfloat :=
  let step := ((stop - start) / INR (num - 1))%R in
  map (fun i => Fin (start + INR i * step)) (seq 0 num).

End Npa.

(** A two-dimensional array: its shape and its rows. *)
Record ndarray2 : Type := mk_ndarray2 {
  shape0 : nat;
  shape1 : nat;
  rows : list (list npfloat)
}.

Definition ndarray2_wf (m : ndarray2) : Prop :=
  length (rows m) = shape0 m /\
  Forall (fun r => length r = shape1 m) (rows m).

(** The state of a [cnts_norm_intp] object. *)
Record cnts_norm_intp : Type := mk_cnts_norm_intp {
  ind_ax : list npfloat;
  cnt_ebins_norm_ind_mat : ndarray2;
  ind0 : npfloat;
  ind1 : npfloat
}.

(** [cnts_norm_intp.__init__]. *)
Definition cnts_norm_intp_init (cnt_ebins_norm_ind_mat : ndarray2)
  (ind_ax : list npfloat) : option cnts_norm_intp :=
  lo <- Npa.min ind_ax ;;
  hi <- Npa.max ind_ax ;;
  Some {| ind_ax := ind_ax;
          cnt_ebins_norm_ind_mat := cnt_ebins_norm_ind_mat;
          ind0 := lo;
          ind1 := hi |}.

(** [cnts_norm_intp.__call__]; [None] is an IndexError. *)
Definition cnts_norm_intp_call (self : cnts_norm_intp) (ind : npfloat)
  : option (list npfloat) :=
  if (ind <=? ind0 self) || (ind >=? ind1 self)
  then Some (Npa.scale NaN
               (Npa.ones (shape1 (cnt_ebins_norm_ind_mat self))))
  else
    n0 <- Npa.argmin (map (fun a => Np.abs (ind - a)) (ind_ax self)) ;;
    let ind_ind0 := Z.of_nat n0 in
    ax0 <- py_index (ind_ax self) ind_ind0 ;;
    let ind_ind1 := if ind >? ax0 then (ind_ind0 + 1)%Z
                    else (ind_ind0 - 1)%Z in
    ax1 <- py_index (ind_ax self) ind_ind1 ;;
    let A0 := Np.abs (ind - ax1) / Np.abs (ax0 - ax1) in
    let A1 := Fin 1 - A0 in
    row0 <- py_index (rows (cnt_ebins_norm_ind_mat self)) ind_ind0 ;;
    row1 <- py_index (rows (cnt_ebins_norm_ind_mat self)) ind_ind1 ;;
    Some (zip_with Np.add (Npa.scale A0 row0) (Npa.scale A1 row1)).

(** ** Objective of the per-bin optimiser *)

(** The outcome of one evaluation of [rate_llh2min]: the indices with which
    the interpolator [cnorm_obj] was called, in order, and the returned value
    ([None] when an exception was raised). *)
Record evaluation : Type := mk_evaluation {
  queries : list npfloat;
  value : option npfloat
}.

Definition rate_llh2min (theta data bkg_cnts bkg_err : list npfloat)
  (sig_dt bkg_dt : npfloat) (cnorm_obj : cnts_norm_intp) : evaluation :=
  match py_index theta 0 with
  | None => {| queries := []; value := None |}
  | Some theta0 =>
      let nsig := Np.pow10 theta0 in
      match py_index theta 1 with
      | None => {| queries := []; value := None |}
      | Some ind =>
          if (ind <? Fin (-1)) || (ind >? Fin 3)
          then {| queries := []; value := Some PInf |}
          else
            {| queries := [ind];
               value :=
                 cnt_ebn <- cnts_norm_intp_call cnorm_obj ind ;;
                 rates_llh data nsig cnt_ebn bkg_cnts bkg_err sig_dt bkg_dt
            |}
      end
  end.

(** The grid of photon indices built in [main]. *)
Definition main_ind_ax : list npfloat := Npa.linspace (-1.5) 3.5 (20 * 5 + 1).

(** ** Time bins of [main] *)

Local Open Scope R_scope.

(** [np.arange start stop step]: [ceil ((stop - start) / step)] values
    [start + i * step]. *)
Definition arange (start stop step : R) : list R :=
  map (fun i => start + INR i * step)
    (seq 0 (Z.to_nat (Zceil ((stop - start) / step)))).

(** The variables [tstep], [bin_size], [t_bins0] and [t_bins1] of [main];
    [ntbins] is the length of [t_bins0]. *)
Record tbins : Type := mk_tbins {
  tstep : R;
  bin_size : R;
  t_bins0 : list R;
  t_bins1 : list R
}.

(** The two assignments
    [t_bins0 = np.arange(-15.008, 15.008, tstep) + trig_time] and
    [t_bins1 = t_bins0 + bin_size]. *)
Definition make_tbins (trig_time tstep bin_size : R) : tbins :=
  let t_bins0 :=
    map (fun t => t + trig_time) (arange (-15.008) 15.008 tstep) in
  {| tstep := tstep;
     bin_size := bin_size;
     t_bins0 := t_bins0;
     t_bins1 := map (fun t => t + bin_size) t_bins0 |}.

(** Before the loop over the doubling rounds. *)
Definition tbins_first (trig_time : R) : tbins :=
  make_tbins trig_time 0.064 0.128.

(** At the end of each round: [tstep *= 2; bin_size *= 2] and the bins are
    generated again. *)
Definition tbins_next (trig_time : R) (st : tbins) : tbins :=
  make_tbins trig_time (tstep st * 2) (bin_size st * 2).

(** The time bins in use during round [ii]. *)
Definition tbins_round (trig_time : R) (ii : nat) : tbins :=
  Nat.iter ii (tbins_next trig_time) (tbins_first trig_time).

(** ** Result table and trials correction *)

(** The detector subsets of [quad_dicts] with their quadrants, in the order
    of the dictionary. *)
Definition quad_dicts : list (list nat) :=
  [ [0; 1; 2; 3]; [0; 1]; [1; 2]; [2; 3]; [3; 0];
    [0]; [1]; [2]; [3] ]%nat.

(** The columns of the result table that the trials correction reads, and
    the two fitted parameters. *)
Record row : Type := mk_row {
  tstart : R;
  tstop : R;
  bkg_llh : npfloat;
  sig_llh : npfloat;
  Nsig : npfloat;
  plaw_ind : npfloat
}.

(** What the likelihood evaluation and the simplex search leave in one row:
    [bkg_llh], [sig_llh], [Nsig] and [plaw_ind], for the round, the subset
    and the time bin given. *)
Definition fit_results : Type :=
  nat -> nat -> nat -> npfloat * npfloat * npfloat * npfloat.

(** The table of one detector subset in one round. *)
Definition subset_table (fit : fit_results) (st : tbins) (ii dir : nat)
  : list row :=
  map (fun '(i, (t0, t1)) =>
         let '(b, s, n, p) := fit ii dir i in
         {| tstart := t0; tstop := t1;
            bkg_llh := b; sig_llh := s; Nsig := n; plaw_ind := p |})
    (combine (seq 0 (length (t_bins0 st)))
       (combine (t_bins0 st) (t_bins1 st))).

(** [vstack(tabs)]: the tables of all rounds and subsets, in loop order. *)
Definition main_table (fit : fit_results) (trig_time : R) (N_dbl_dt : nat)
  : list row :=
  flat_map (fun ii =>
    flat_map (fun dir => subset_table fit (tbins_round trig_time ii) ii dir)
      (seq 0 (length quad_dicts)))
    (seq 0 N_dbl_dt).

(** [np.isclose a b] on finite values, with the default tolerances. *)
Definition isclose (a b : R) : bool :=
  Rleb (Rabs (a - b)) (1e-8 + 1e-5 * Rabs b).

(** [np.max] and [np.min] of a column of reals. *)
Definition Rlist_max (l : list R) : option R :=
  match l with
  | [] => None
  | x :: t => Some (fold_left Rmax t x)
  end.

Definition Rlist_min (l : list R) : option R :=
  match l with
  | [] => None
  | x :: t => Some (fold_left Rmin t x)
  end.

(** [pvals[bl] *= c]. *)
Definition mask_mul (pvals : list npfloat) (bl : list bool) (c : npfloat)
  : list npfloat :=
  zip_with (fun p (b : bool) => if b then (p * c)%np else p) pvals bl.

(** The last block of [main]: the column [pval]. [chi2_sf x df] stands for
    [stats.chi2.sf(x, df)]. *)
Definition trials_correction (chi2_sf : npfloat -> nat -> npfloat)
  (ndbl : nat) (tab : list row) : option (list npfloat) :=
  hi <- Rlist_max (map tstop tab) ;;
  lo <- Rlist_min (map tstart tab) ;;
  let dt_tot := hi - lo in
  let llhrs := map (fun r => (bkg_llh r - sig_llh r)%np) tab in
  let exps := map (fun r => tstop r - tstart r) tab in
  let pvals := map (fun x => chi2_sf (Fin 2 * x)%np 1%nat) llhrs in
  let Nexps := (ndbl + 1)%nat in
  let pvals :=
    fold_left (fun pvals i =>
      let bl_exp := map (fun e => isclose e (0.128 * 2 ^ i)) exps in
      mask_mul pvals bl_exp
        (Fin (INR (count_true (fun b : bool => b) bl_exp)) / Fin dt_tot)%np)
      (seq 0 Nexps) pvals in
  Some (map (fun p => (Fin 1 - Np.exp (- p))%np) pvals).

(** The rows of a table whose exposure is in the duration class of round
    [i]. *)
Definition class_size (i : nat) (tab : list row) : nat :=
  count_true (fun r => isclose (tstop r - tstart r) (0.128 * 2 ^ i)) tab.

(** Whether an event lies on one of the two midlines of the detector
    plane. *)
Definition on_midline (e : event) : bool :=
  (DETX e =? x_mid)%Z || (DETY e =? y_mid)%Z.

(** The number of cells (time bin, energy bin, quadrant) of the count array
    in which [get_quad_cnts_tbins] counts the event [e]. *)
Definition cells_counting (tbins0 tbins1 ebins0 ebins1 : list R) (e : event)
  : nat :=
  (bins_containing tbins0 tbins1 (TIME e)
   * bins_containing ebins0 ebins1 (ENERGY e)
   * quads_containing e)%nat.

(** ** Detector-plane images *)

(** Sum of all entries of a two-dimensional array of counts. *)
Definition sum2 (a : list (list nat)) : nat :=
  list_sum (map (@list_sum) a).

(** [dpi2cnts_perquad]: a detector-plane image is indexed [dpi[y, x]]; the
    slices [:n] and [n:] are [firstn n] and [skipn n]. *)
Definition dpi2cnts_perquad (dpi : list (list nat)) : list nat :=
  let x_mid := 142%nat in
  let y_mid := 86%nat in
  [ sum2 (map (firstn x_mid) (firstn y_mid dpi));
    sum2 (map (firstn x_mid) (skipn y_mid dpi));
    sum2 (map (skipn x_mid) (skipn y_mid dpi));
    sum2 (map (skipn x_mid) (firstn y_mid dpi)) ].

(** [dmask2ndets_perquad]: the image [dmask == 0], whose entries count as 1
    where the mask is 0 and as 0 elsewhere. *)
Definition dmask2ndets_perquad (dmask : list (list Z)) : list nat :=
  dpi2cnts_perquad
    (map (map (fun v => if (v =? 0)%Z then 1%nat else 0%nat)) dmask).

(** ** Counts per time bin and energy-bin index *)

(** [a[mask]] for a boolean mask; [None] is the IndexError NumPy raises when
    the mask is not as long as the array. *)
Definition mask_select {A : Type} (a : list A) (mask : list bool)
  : option (list A) :=
  if (length mask =? length a)%nat
  then Some (map fst (filter snd (combine a mask)))
  else None.

(** [get_cnts]: [ebin_inds] holds the energy-bin index of every event. *)
Definition get_cnts (ev : list event) (t_bins0 t_bins1 : list R)
  (ebin_inds : list Z) (nebins : nat) : option (list (list nat)) :=
  let ntbins := length t_bins0 in
  mapM (fun i =>
    t0 <- nth_error t_bins0 i ;;
    t1 <- nth_error t_bins1 i ;;
    let blt := map (fun e => in_bin t0 t1 (TIME e)) ev in
    ebin_inds_ <- mask_select ebin_inds blt ;;
    Some (map (fun j =>
                 count_true (fun b => (b =? Z.of_nat j)%Z) ebin_inds_)
            (seq 0 nebins)))
    (seq 0 ntbins).

(** ** Construction of the template cache *)

(** [mat[i] = v] for a row of [nebins] entries: [v] must have [nebins]
    entries, or one entry, which is then repeated; [None] is the ValueError
    for any other shape. *)
Definition assign_row (nebins : nat) (v : list npfloat)
  : option (list npfloat) :=
  if (length v =? nebins)%nat then Some v
  else match v with
       | [c] => Some (repeat c nebins)
       | _ => None
       end.

(** [get_cnts_intp_obj]: [get_cnt_ebins_normed ind] stands for the call
    [get_cnt_ebins_normed(ind, drm, ebin_ind_edges, abs_cor=abs_cor)] and
    [nebins] for [len(ebin_ind_edges)]. *)
Definition get_cnts_intp_obj (get_cnt_ebins_normed : npfloat -> list npfloat)
  (ind_ax : list npfloat) (nebins : nat) : option cnts_norm_intp :=
  mat_rows <-
    mapM (fun i =>
            a <- nth_error ind_ax i ;;
            assign_row nebins (get_cnt_ebins_normed a))
      (seq 0 (length ind_ax)) ;;
  cnts_norm_intp_init
    {| shape0 := length ind_ax; shape1 := nebins; rows := mat_rows |}
    ind_ax.

(** ** Event selection and energy bins of [main] *)

(** The second assignment of [ebins0] and [ebins1] in [main], the one in
    force: [ebins1 = np.append(ebins0[1:], [194.9])]. *)
Definition main_ebins0 : list R := [14; 24; 36.3; 55.4; 80; 120.7]%R.

Definition main_ebins1 : list R := (tl main_ebins0 ++ [194.9])%R.

(** The mask [bl_ev] for one event, with its [EVENT_FLAGS] and the value
    [mask_vals] that [mask_detxy] gives it. *)
Definition bl_ev (good_t0 good_t1 : R) (e : event)
  (EVENT_FLAGS mask_val : Z) : bool :=
  Rltb good_t0 (TIME e) && Rltb (TIME e) good_t1
  && (EVENT_FLAGS <? 1)%Z && (mask_val =? 0)%Z
  && Rleb (ENERGY e) 194.9 && Rleb 14 (ENERGY e).

(** [np.sum([quad_cnts_mat[:, :, q] for q in quads], axis=0)]: the counts of
    a detector subset, for a non-empty list of quadrants; [None] is the
    IndexError for a quadrant that a cell of the count array does not
    have. *)
Definition subset_cnts (quads : list nat)
  (quad_cnts_mat : list (list (list nat))) : option (list (list nat)) :=
  mapM (fun t =>
    mapM (fun cell =>
      qs <- mapM (fun q => nth_error cell q) quads ;;
      Some (list_sum qs)) t)
    quad_cnts_mat.

(** ** Reference definitions *)

(** The coefficients of the quadratic a f^2 + b f + c = 0 that the
    derivative of the joint negative log-likelihood gives for the background
    rate [f]; a is [odt^2]. *)
Definition quad_b (sdt odt : R) (s o sigma : R) : R :=
  sdt * sigma ^ 2 - odt * o + odt ^ 2 * s.

Definition quad_c (sdt odt : R) (d s o sigma : R) : R :=
  sdt * sigma ^ 2 * s - d * sigma ^ 2 - odt * o * s.

(** Linear interpolation between [a] and [b] at the fraction [t], and the
    sum of a list of reals. *)
Definition lerp (t a b : R) : R := (1 - t) * a + t * b.

Definition Rsum (l : list R) : R := fold_right Rplus 0 l.

(** A template matrix over three grid points and two energy bins. *)
Definition example_mat : ndarray2 :=
  {| shape0 := 3; shape1 := 2;
     rows := [ [Fin 0.2; Fin 0.8]; [Fin 0.5; Fin 0.5]; [Fin 0.7; Fin 0.3] ]
  |}.

Definition example_ax : list npfloat := [Fin 0; Fin 1; Fin 2].

(* ===================================================================== *)
(** * Properties *)

Arguments Rltb : simpl never.
Arguments Rleb : simpl never.
Arguments Reqb : simpl never.

Lemma Rltb_true x y : Rltb x y = true <-> x < y.
Proof. unfold Rltb; destruct (Rlt_dec x y); split; intros; try easy. Qed.

Lemma Rltb_false x y : Rltb x y = false <-> y <= x.
Proof.
  unfold Rltb; destruct (Rlt_dec x y); split; intros; try easy; lra.
Qed.

Lemma Rleb_true x y : Rleb x y = true <-> x <= y.
Proof. unfold Rleb; destruct (Rle_dec x y); split; intros; try easy. Qed.

Lemma Rleb_false x y : Rleb x y = false <-> y < x.
Proof.
  unfold Rleb; destruct (Rle_dec x y); split; intros; try easy; lra.
Qed.

Lemma Reqb_true x y : Reqb x y = true <-> x = y.
Proof. unfold Reqb; destruct (Req_dec_T x y); split; intros; try easy. Qed.

Lemma Reqb_false x y : Reqb x y = false <-> x <> y.
Proof. unfold Reqb; destruct (Req_dec_T x y); split; intros; try easy. Qed.

(** Evaluates every boolean comparison of the goal whose outcome linear
    arithmetic decides. *)
Ltac Rcompare :=
  repeat match goal with
  | |- context [Rltb ?x ?y] =>
      first [ replace (Rltb x y) with true
                by (symmetry; apply Rltb_true; lra)
            | replace (Rltb x y) with false
                by (symmetry; apply Rltb_false; lra) ]
  | |- context [Rleb ?x ?y] =>
      first [ replace (Rleb x y) with true
                by (symmetry; apply Rleb_true; lra)
            | replace (Rleb x y) with false
                by (symmetry; apply Rleb_false; lra) ]
  | |- context [Reqb ?x ?y] =>
      first [ replace (Reqb x y) with true
                by (symmetry; apply Reqb_true; lra)
            | replace (Reqb x y) with false
                by (symmetry; apply Reqb_false; lra) ]
  end.

(** ** Loops over [range(len(l))] *)

Lemma mapM_ext {A B : Type} (f g : A -> option B) (l : list A) :
  (forall a, f a = g a) -> mapM f l = mapM g l.
Proof.
  intros E; induction l as [|a t IH]; simpl; [reflexivity|].
  now rewrite E, IH.
Qed.

Lemma mapM_seq_shift {B : Type} (f : nat -> option B) (s n : nat) :
  mapM f (seq (S s) n) = mapM (fun i => f (S i)) (seq s n).
Proof.
  revert s; induction n as [|n IH]; intros s; simpl; [reflexivity|].
  now rewrite IH.
Qed.

Lemma mapM_total {A B : Type} (g : A -> B) (l : list A) :
  mapM (fun a => Some (g a)) l = Some (map g l).
Proof.
  induction l as [|a t IH]; simpl; [reflexivity|]. now rewrite IH.
Qed.

(** A loop that reads [l1[i]] and [l2[i]] for every index of [l1] visits the
    pairs of the two lists when [l2] is as long as [l1]. *)
Lemma mapM_range_pairs {A B C : Type} (h : A -> B -> option C)
  (l1 : list A) (l2 : list B) :
  length l2 = length l1 ->
  mapM (fun i => a <- nth_error l1 i ;; b <- nth_error l2 i ;; h a b)
    (seq 0 (length l1))
  = mapM (fun ab => h (fst ab) (snd ab)) (combine l1 l2).
Proof.
  revert l2; induction l1 as [|a t IH]; intros [|b t2] L; simpl in *;
    try discriminate; [reflexivity|].
  destruct (h a b) as [c|]; [|reflexivity].
  rewrite mapM_seq_shift. simpl.
  rewrite IH by lia. reflexivity.
Qed.

(** ** Binning engine *)

Lemma count_true_cons {A : Type} (p : A -> bool) (a : A) (l : list A) :
  count_true p (a :: l) = ((if p a then 1 else 0) + count_true p l)%nat.
Proof. unfold count_true; simpl; destruct (p a); reflexivity. Qed.

Lemma count_true_le {A : Type} (p : A -> bool) (l : list A) :
  (count_true p l <= length l)%nat.
Proof. apply filter_length_le. Qed.

Lemma count_true_filter {A : Type} (p q : A -> bool) (l : list A) :
  count_true p (filter q l) = count_true (fun a => q a && p a) l.
Proof.
  unfold count_true; induction l as [|a t IH]; simpl; [reflexivity|].
  destruct (q a); simpl; [destruct (p a); simpl|]; now rewrite ?IH.
Qed.

Lemma quads_containing_midline (e : event) :
  quads_containing e = if on_midline e then 0%nat else 1%nat.
Proof.
  unfold quads_containing, on_midline, count_true, in_quad, x_mid, y_mid.
  simpl. rewrite !Z.gtb_ltb.
  destruct (Z.ltb_spec (DETX e) 142), (Z.ltb_spec 142 (DETX e)),
    (Z.ltb_spec (DETY e) 86), (Z.ltb_spec 86 (DETY e)),
    (Z.eqb_spec (DETX e) 142), (Z.eqb_spec (DETY e) 86);
    simpl; try reflexivity; lia.
Qed.

Lemma list_sum_cons (n : nat) (l : list nat) :
  list_sum (n :: l) = (n + list_sum l)%nat.
Proof. reflexivity. Qed.

Lemma ev2quad_cnts_sum (ev : list event) :
  list_sum (ev2quad_cnts ev) = list_sum (map quads_containing ev).
Proof.
  induction ev as [|e t IH]; [reflexivity|].
  rewrite map_cons, list_sum_cons, <- IH.
  unfold ev2quad_cnts, quads_containing.
  rewrite !list_sum_cons. cbn [seq]. rewrite !count_true_cons.
  cbn [list_sum fold_right].
  change (count_true (fun q : nat => in_quad q e) []) with 0%nat.
  fold (count_true (in_quad 3) t). lia.
Qed.

Lemma list_sum_map_add {A : Type} (f g : A -> nat) (l : list A) :
  list_sum (map (fun a => (f a + g a)%nat) l)
  = (list_sum (map f l) + list_sum (map g l))%nat.
Proof.
  induction l as [|a t IH]; [reflexivity|].
  rewrite !map_cons, !list_sum_cons, IH. lia.
Qed.

Lemma list_sum_map_mul_r {A : Type} (f : A -> nat) (c : nat) (l : list A) :
  list_sum (map (fun a => (f a * c)%nat) l) = (list_sum (map f l) * c)%nat.
Proof.
  induction l as [|a t IH]; [reflexivity|].
  rewrite !map_cons, !list_sum_cons, IH. lia.
Qed.

Lemma list_sum_map_ext {A : Type} (f g : A -> nat) (l : list A) :
  (forall a, f a = g a) -> list_sum (map f l) = list_sum (map g l).
Proof. intros E. f_equal. apply map_ext, E. Qed.

Lemma count_true_indicator {A : Type} (p : A -> bool) (l : list A) :
  count_true p l = list_sum (map (fun a => if p a then 1%nat else 0%nat) l).
Proof.
  induction l as [|a t IH]; [reflexivity|].
  rewrite count_true_cons, map_cons, list_sum_cons, IH. reflexivity.
Qed.

(** The entry of the count array for one time bin and one energy bin, summed
    over the quadrants, event by event. *)
Lemma cell_sum_cons (tb eb : R * R) (e : event) (evd : list event) :
  let cell l :=
    list_sum (ev2quad_cnts
      (filter (fun e => in_bin (fst eb) (snd eb) (ENERGY e))
         (filter (fun e => in_bin (fst tb) (snd tb) (TIME e)) l))) in
  cell (e :: evd)
  = ((if in_bin (fst tb) (snd tb) (TIME e) then 1 else 0)
     * (if in_bin (fst eb) (snd eb) (ENERGY e) then 1 else 0)
     * quads_containing e
     + cell evd)%nat.
Proof.
  intros cell. unfold cell. rewrite !ev2quad_cnts_sum. cbn [filter].
  destruct (in_bin (fst tb) (snd tb) (TIME e)); cbn [filter];
    [destruct (in_bin (fst eb) (snd eb) (ENERGY e))|];
    rewrite ?map_cons, ?list_sum_cons; lia.
Qed.

(** The count array in closed form, when every bin has both its edges. *)
Lemma get_quad_cnts_tbins_pairs (tbins0 tbins1 ebins0 ebins1 : list R)
  (evd : list event) :
  length tbins1 = length tbins0 ->
  length ebins1 = length ebins0 ->
  get_quad_cnts_tbins tbins0 tbins1 ebins0 ebins1 evd
  = Some (map (fun tb =>
            map (fun eb =>
              ev2quad_cnts
                (filter (fun e => in_bin (fst eb) (snd eb) (ENERGY e))
                   (filter (fun e => in_bin (fst tb) (snd tb) (TIME e)) evd)))
              (combine ebins0 ebins1))
            (combine tbins0 tbins1)).
Proof.
  intros Lt Le. unfold get_quad_cnts_tbins.
  rewrite (mapM_range_pairs
             (fun t0 t1 =>
                mapM (fun j =>
                  e0 <- nth_error ebins0 j ;;
                  e1 <- nth_error ebins1 j ;;
                  Some (ev2quad_cnts
                          (filter (fun e => in_bin e0 e1 (ENERGY e))
                             (filter (fun e => in_bin t0 t1 (TIME e)) evd))))
                  (seq 0 (length ebins0)))) by exact Lt.
  rewrite <- mapM_total. apply mapM_ext. intros tb.
  rewrite (mapM_range_pairs
             (fun e0 e1 =>
                Some (ev2quad_cnts
                        (filter (fun e => in_bin e0 e1 (ENERGY e))
                           (filter (fun e => in_bin (fst tb) (snd tb) (TIME e))
                              evd))))) by exact Le.
  apply mapM_total.
Qed.

(** Every event contributes to the sum of the count array once for each
    cell that counts it. *)
Lemma sum3_cells_counting (tbins0 tbins1 ebins0 ebins1 : list R)
  (evd : list event) (m : list (list (list nat))) :
  length tbins1 = length tbins0 ->
  length ebins1 = length ebins0 ->
  get_quad_cnts_tbins tbins0 tbins1 ebins0 ebins1 evd = Some m ->
  sum3 m = list_sum (map (cells_counting tbins0 tbins1 ebins0 ebins1) evd).
Proof.
  intros Lt Le. rewrite get_quad_cnts_tbins_pairs by assumption.
  intros E; injection E as <-. unfold sum3. rewrite map_map.
  induction evd as [|e evd IH].
  - cbn [map filter]. rewrite (list_sum_map_ext _ (fun _ => 0%nat)).
    + induction (combine tbins0 tbins1); [reflexivity|].
      now rewrite map_cons, list_sum_cons.
    + intros tb. rewrite map_map.
      induction (combine ebins0 ebins1); [reflexivity|].
      now rewrite map_cons, list_sum_cons.
  - rewrite map_cons, list_sum_cons, <- IH. clear IH.
    unfold cells_counting, bins_containing.
    rewrite !count_true_indicator.
    set (qc := quads_containing e).
    rewrite <- list_sum_map_mul_r, <- list_sum_map_mul_r.
    rewrite <- list_sum_map_add. apply list_sum_map_ext. intros tb.
    rewrite !map_map.
    rewrite (list_sum_map_ext _ _ _ (fun eb => cell_sum_cons tb eb e evd)).
    rewrite list_sum_map_add. f_equal.
    unfold qc. induction (combine ebins0 ebins1) as [|eb l IHl];
      [cbn; lia|].
    rewrite !map_cons, !list_sum_cons, IHl. lia.
Qed.

(** Evaluates the bin masks of a concrete event list. *)
Ltac eval_bins :=
  unfold bins_containing, count_true, in_bin; cbn [combine filter fst snd
    TIME ENERGY length andb];
  repeat (Rcompare; cbn [combine filter fst snd TIME ENERGY length andb]).

(** C10.  [ev2quad_cnts] selects every event in at most one quadrant: an
    event on a midline (DETX = 142 or DETY = 86) is selected by none of the
    four strict comparisons, every other event by exactly one.  The four
    counts therefore add up to the number of events off the midlines, which
    is at most the number of events, and is smaller for an event list such as
    the single event at DETX = 142. *)
Theorem ev2quad_cnts_strict_midlines (ev : list event) (e : event) :
  quads_containing e = (if on_midline e then 0 else 1)%nat
  /\ list_sum (ev2quad_cnts ev)
     = count_true (fun e => negb (on_midline e)) ev
  /\ (list_sum (ev2quad_cnts ev) <= length ev)%nat
  /\ (list_sum (ev2quad_cnts [mk_event 0 0 142 0]) < 1)%nat.
Proof.
  assert (S : list_sum (ev2quad_cnts ev)
              = count_true (fun e => negb (on_midline e)) ev).
  { rewrite ev2quad_cnts_sum, count_true_indicator.
    apply list_sum_map_ext. intros a. rewrite quads_containing_midline.
    destruct (on_midline a); reflexivity. }
  split; [apply quads_containing_midline|].
  split; [exact S|]. split.
  - rewrite S. apply count_true_le.
  - cbn. lia.
Qed.

(** C8, as amended.  For time bins and energy bins that each have both
    edges, if every event lies in exactly one time bin and in exactly one
    energy bin, and no event lies on a quadrant midline (DETX = 142 or
    DETY = 86), then [get_quad_cnts_tbins] returns a count array whose entries
    add up to the number of events. *)
Theorem get_quad_cnts_tbins_conserves_events
  (tbins0 tbins1 ebins0 ebins1 : list R) (evd : list event) :
  length tbins1 = length tbins0 ->
  length ebins1 = length ebins0 ->
  Forall (fun e => bins_containing tbins0 tbins1 (TIME e) = 1%nat) evd ->
  Forall (fun e => bins_containing ebins0 ebins1 (ENERGY e) = 1%nat) evd ->
  Forall (fun e => on_midline e = false) evd ->
  exists m,
    get_quad_cnts_tbins tbins0 tbins1 ebins0 ebins1 evd = Some m
    /\ sum3 m = length evd.
Proof.
  intros Lt Le Ht He Hq.
  destruct (get_quad_cnts_tbins tbins0 tbins1 ebins0 ebins1 evd) as [m|] eqn:E;
    [|rewrite get_quad_cnts_tbins_pairs in E by assumption; discriminate].
  exists m. split; [reflexivity|].
  rewrite (sum3_cells_counting _ _ _ _ _ _ Lt Le E). clear E.
  induction evd as [|e evd IH]; [reflexivity|].
  inversion Ht as [|? ? Ht1 Ht2]; inversion He as [|? ? He1 He2];
    inversion Hq as [|? ? Hq1 Hq2]; subst.
  rewrite map_cons, list_sum_cons, (IH Ht2 He2 Hq2).
  unfold cells_counting. rewrite Ht1, He1, quads_containing_midline, Hq1.
  reflexivity.
Qed.

Lemma get_quad_cnts_tbins_conserves_events_witness :
  exists m,
    get_quad_cnts_tbins [0; 1] [1; 2] [14; 24] [24; 36.3]
      [mk_event 0.5 15 10 10; mk_event 1.5 30 200 100] = Some m
    /\ sum3 m = 2%nat.
Proof.
  apply (get_quad_cnts_tbins_conserves_events [0; 1] [1; 2] [14; 24]
           [24; 36.3] [mk_event 0.5 15 10 10; mk_event 1.5 30 200 100]).
  - reflexivity.
  - reflexivity.
  - repeat constructor; eval_bins; reflexivity.
  - repeat constructor; eval_bins; reflexivity.
  - repeat constructor.
Defined.

(** C8, counterexample.  One event inside the first time bin and the first
    energy bin, at DETX = 142: the count array is all zeros, so its entries
    add up to 0 and not to the number of events, 1.  And one event off the
    midlines at time 0.1, inside both of the time bins [0, 0.128) and
    [0.064, 0.192), which overlap as the bins of [main] do: it is counted in
    both, and the entries add up to 2. *)
Lemma get_quad_cnts_tbins_sum_differs :
  (let ev := mk_event 0.5 15 142 10 in
   bins_containing [0; 1] [1; 2] (TIME ev) = 1%nat
   /\ bins_containing [14; 24] [24; 36.3] (ENERGY ev) = 1%nat
   /\ get_quad_cnts_tbins [0; 1] [1; 2] [14; 24] [24; 36.3] [ev]
      = Some [ [ [0; 0; 0; 0]; [0; 0; 0; 0] ];
               [ [0; 0; 0; 0]; [0; 0; 0; 0] ] ]%nat
   /\ sum3 [ [ [0; 0; 0; 0]; [0; 0; 0; 0] ];
             [ [0; 0; 0; 0]; [0; 0; 0; 0] ] ]%nat <> length [ev])
  /\ (let ev := mk_event 0.1 15 10 10 in
      get_quad_cnts_tbins [0; 0.064] [0.128; 0.192] [14; 24] [24; 36.3] [ev]
      = Some [ [ [1; 0; 0; 0]; [0; 0; 0; 0] ];
               [ [1; 0; 0; 0]; [0; 0; 0; 0] ] ]%nat
      /\ sum3 [ [ [1; 0; 0; 0]; [0; 0; 0; 0] ];
                [ [1; 0; 0; 0]; [0; 0; 0; 0] ] ]%nat <> length [ev]).
Proof.
  split.
  - intros ev. unfold ev.
    split; [eval_bins; reflexivity|].
    split; [eval_bins; reflexivity|].
    split; [|cbn; lia].
    rewrite get_quad_cnts_tbins_pairs by reflexivity.
    cbn [combine map fst snd]. eval_bins. reflexivity.
  - intros ev. unfold ev. split; [|cbn; lia].
    rewrite get_quad_cnts_tbins_pairs by reflexivity.
    cbn [combine map fst snd]. eval_bins. reflexivity.
Qed.

(** ** Profiled likelihood *)

Lemma Reqb_refl (x : R) : Reqb x x = true.
Proof. now apply Reqb_true. Qed.

Lemma quad_disc_nonneg (sdt odt d s o sigma : R) :
  0 <= d ->
  0 <= quad_b sdt odt s o sigma ^ 2
       - 4 * odt ^ 2 * quad_c sdt odt d s o sigma.
Proof.
  intros Hd. unfold quad_b, quad_c.
  replace ((sdt * sigma ^ 2 - odt * o + odt ^ 2 * s) ^ 2
           - 4 * odt ^ 2
             * (sdt * sigma ^ 2 * s - d * sigma ^ 2 - odt * o * s))
    with ((sdt * sigma ^ 2 - odt * o - odt ^ 2 * s) ^ 2
          + 4 * (odt * sigma) ^ 2 * d) by ring.
  assert (0 <= (sdt * sigma ^ 2 - odt * o - odt ^ 2 * s) ^ 2)
    by apply pow2_ge_0.
  assert (0 <= (odt * sigma) ^ 2) by apply pow2_ge_0.
  nra.
Qed.

(** The root taken by the code, for one energy bin and finite arguments. *)
Lemma profiled_f_i_finite (sdt odt d s o sigma : R) :
  0 <= d -> odt <> 0 ->
  let b := quad_b sdt odt s o sigma in
  let c := quad_c sdt odt d s o sigma in
  profiled_f_i (Fin d) (Fin s) (Fin sdt) (Fin o) (Fin odt)
    (Np.square (Fin sigma))
  = Fin ((- b + sqrt (b ^ 2 - 4 * odt ^ 2 * c)) / (2 * odt ^ 2)).
Proof.
  intros Hd Hodt b c.
  pose proof (quad_disc_nonneg sdt odt d s o sigma Hd) as Hdisc.
  fold b c in Hdisc.
  unfold profiled_f_i, Np.square, Np.sub. cbn [Np.mul Np.add Np.neg].
  replace ((sdt * (sigma * sigma) + - (odt * o) + odt * odt * s)
           * (sdt * (sigma * sigma) + - (odt * o) + odt * odt * s)
           + - (4 * (odt * odt)
                * (sdt * (sigma * sigma) * s + - (d * (sigma * sigma))
                   + - (odt * o * s))))
    with (b ^ 2 - 4 * odt ^ 2 * c) by (unfold b, c, quad_b, quad_c; ring).
  unfold Np.sqrt.
  replace (Rltb (b ^ 2 - 4 * odt ^ 2 * c) 0) with false
    by (symmetry; apply Rltb_false; exact Hdisc).
  cbn [Np.add Np.div].
  replace (Reqb (2 * (odt * odt)) 0) with false
    by (symmetry; apply Reqb_false; nra).
  f_equal. unfold b, quad_b. f_equal; ring.
Qed.

Lemma quadratic_root (a b c : R) :
  a <> 0 -> 0 <= b ^ 2 - 4 * a * c ->
  let f := (- b + sqrt (b ^ 2 - 4 * a * c)) / (2 * a) in
  a * f ^ 2 + b * f + c = 0.
Proof.
  intros Ha Hd f. pose proof (sqrt_sqrt _ Hd) as Hq.
  set (q := sqrt (b ^ 2 - 4 * a * c)) in *.
  replace (a * f ^ 2 + b * f + c)
    with ((q * q - (b ^ 2 - 4 * a * c)) / (4 * a))
    by (unfold f; fold q; field; exact Ha).
  rewrite Hq. unfold Rdiv. ring.
Qed.

Lemma broadcast4_fin (d s o e : list R) :
  length s = length d -> length o = length d -> length e = length d ->
  exists bins,
    broadcast4 (map Fin d) (map Fin s) (map Fin o) (map Fin e) = Some bins
    /\ length bins = length d
    /\ forall i di si oi ei,
         nth_error d i = Some di -> nth_error s i = Some si ->
         nth_error o i = Some oi -> nth_error e i = Some ei ->
         nth_error bins i = Some (Fin di, Fin si, Fin oi, Fin ei).
Proof.
  revert s o e.
  induction d as [|d0 d IH]; intros [|s0 s] [|o0 o] [|e0 e] Ls Lo Le;
    simpl in Ls, Lo, Le; try discriminate.
  - exists []. repeat split. intros [|i]; discriminate.
  - destruct (IH s o e) as (bins & E & L & N); try lia.
    exists ((Fin d0, Fin s0, Fin o0, Fin e0) :: bins).
    cbn [map broadcast4]. rewrite E. repeat split; [simpl; lia|].
    intros [|i] di si oi ei; cbn [nth_error].
    + now intros [= <-] [= <-] [= <-] [= <-].
    + apply N.
Qed.

(** C1.  For observed counts [d >= 0] in every energy bin, finite trial
    rates, exposures and off-region data, and an off-region exposure
    [odt > 0], [profiled_bkg_llh] with [ret_f] returns, and the profiled
    background rate it returns for each energy bin is the [+] root
    [(- b + sqrt (b^2 - 4 a c)) / (2 a)] of
    [odt^2 f^2 + (sdt sigma^2 - odt o + odt^2 s) f
       + (sdt sigma^2 s - d sigma^2 - odt o s) = 0],
    which it satisfies. *)
Theorem profiled_bkg_llh_root (d s o sigma : list R) (sdt odt : R) :
  length s = length d -> length o = length d -> length sigma = length d ->
  Forall (fun x => 0 <= x) d ->
  0 < odt ->
  exists (llh : npfloat) (f : list R),
    profiled_bkg_llh_ret_f (map Fin d) (map Fin s) (Fin sdt) (map Fin o)
      (Fin odt) (map Fin sigma) = Some (llh, map Fin f)
    /\ length f = length d
    /\ forall i di si oi ei fi,
         nth_error d i = Some di -> nth_error s i = Some si ->
         nth_error o i = Some oi -> nth_error sigma i = Some ei ->
         nth_error f i = Some fi ->
         fi = (- (sdt * ei ^ 2 - odt * oi + odt ^ 2 * si)
               + sqrt ((sdt * ei ^ 2 - odt * oi + odt ^ 2 * si) ^ 2
                       - 4 * odt ^ 2
                         * (sdt * ei ^ 2 * si - di * ei ^ 2
                            - odt * oi * si)))
              / (2 * odt ^ 2)
         /\ odt ^ 2 * fi ^ 2
            + (sdt * ei ^ 2 - odt * oi + odt ^ 2 * si) * fi
            + (sdt * ei ^ 2 * si - di * ei ^ 2 - odt * oi * si) = 0.
Proof.
  intros Ls Lo Le Hd Hodt.
  destruct (broadcast4_fin d s o sigma Ls Lo Le) as (bins & E & L & N).
  set (root := fun di si oi ei =>
         (- quad_b sdt odt si oi ei
          + sqrt (quad_b sdt odt si oi ei ^ 2
                  - 4 * odt ^ 2 * quad_c sdt odt di si oi ei))
         / (2 * odt ^ 2)).
  set (f := map (fun i =>
                   root (nth i d 0) (nth i s 0) (nth i o 0) (nth i sigma 0))
              (seq 0 (length d))).
  assert (Lf : length f = length d)
    by (unfold f; now rewrite length_map, length_seq).
  assert (Hf : forall i di si oi ei fi,
             nth_error d i = Some di -> nth_error s i = Some si ->
             nth_error o i = Some oi -> nth_error sigma i = Some ei ->
             nth_error f i = Some fi -> fi = root di si oi ei).
  { intros i di si oi ei fi Di Si Oi Ei Fi.
    assert (Hi : (i < length d)%nat)
      by (apply nth_error_Some; congruence).
    unfold f in Fi. rewrite nth_error_map, nth_error_seq in Fi.
    destruct (Nat.ltb_spec i (length d)); [|lia].
    cbn in Fi. injection Fi as <-.
    now rewrite (nth_error_nth _ _ _ Di), (nth_error_nth _ _ _ Si),
      (nth_error_nth _ _ _ Oi), (nth_error_nth _ _ _ Ei). }
  exists (Np.sum
            (map (fun '(d, s, o, e) =>
                    let sig2 := Np.square e in
                    profiled_llh_i d s (Fin sdt) o (Fin odt) sig2
                      (profiled_f_i d s (Fin sdt) o (Fin odt) sig2))
               bins)), f.
  split; [|split; [exact Lf|]].
  - unfold profiled_bkg_llh_ret_f. rewrite E. cbn [bind]. do 2 f_equal.
    apply nth_error_ext. intros i. rewrite !nth_error_map.
    destruct (Nat.lt_ge_cases i (length d)) as [Hi|Hi].
    + destruct (nth_error d i) as [di|] eqn:Di;
        [|apply nth_error_None in Di; lia].
      destruct (nth_error s i) as [si|] eqn:Si;
        [|apply nth_error_None in Si; lia].
      destruct (nth_error o i) as [oi|] eqn:Oi;
        [|apply nth_error_None in Oi; lia].
      destruct (nth_error sigma i) as [ei|] eqn:Ei;
        [|apply nth_error_None in Ei; lia].
      destruct (nth_error f i) as [fi|] eqn:Fi;
        [|apply nth_error_None in Fi; lia].
      rewrite (N i di si oi ei Di Si Oi Ei). cbn [option_map]. f_equal.
      rewrite (Hf i di si oi ei fi Di Si Oi Ei Fi).
      apply profiled_f_i_finite; [|lra].
      rewrite Forall_forall in Hd. apply Hd. eapply nth_error_In, Di.
    + replace (nth_error bins i) with (@None (npfloat * npfloat * npfloat
                                               * npfloat))
        by (symmetry; apply nth_error_None; lia).
      replace (nth_error f i) with (@None R)
        by (symmetry; apply nth_error_None; lia).
      reflexivity.
  - intros i di si oi ei fi Di Si Oi Ei Fi.
    pose proof (Hf i di si oi ei fi Di Si Oi Ei Fi) as ->.
    assert (0 <= di)
      by (rewrite Forall_forall in Hd; apply Hd; eapply nth_error_In, Di).
    split; [reflexivity|].
    apply (quadratic_root (odt ^ 2) (quad_b sdt odt si oi ei)
             (quad_c sdt odt di si oi ei)).
    + apply pow_nonzero; lra.
    + now apply quad_disc_nonneg.
Qed.

Lemma profiled_bkg_llh_root_witness :
  exists (llh : npfloat) (f : list R),
    profiled_bkg_llh_ret_f (map Fin [1]) (map Fin [0]) (Fin 1) (map Fin [4])
      (Fin 2) (map Fin [2]) = Some (llh, map Fin f)
    /\ length f = length [1]
    /\ forall i di si oi ei fi,
         nth_error [1] i = Some di -> nth_error [0] i = Some si ->
         nth_error [4] i = Some oi -> nth_error [2] i = Some ei ->
         nth_error f i = Some fi ->
         fi = (- (1 * ei ^ 2 - 2 * oi + 2 ^ 2 * si)
               + sqrt ((1 * ei ^ 2 - 2 * oi + 2 ^ 2 * si) ^ 2
                       - 4 * 2 ^ 2
                         * (1 * ei ^ 2 * si - di * ei ^ 2 - 2 * oi * si)))
              / (2 * 2 ^ 2)
         /\ 2 ^ 2 * fi ^ 2
            + (1 * ei ^ 2 - 2 * oi + 2 ^ 2 * si) * fi
            + (1 * ei ^ 2 * si - di * ei ^ 2 - 2 * oi * si) = 0.
Proof.
  apply (profiled_bkg_llh_root [1] [0] [4] [2] 1 2).
  - reflexivity.
  - reflexivity.
  - reflexivity.
  - repeat constructor. lra.
  - lra.
Defined.

(** *** Special values in the likelihood *)

Lemma add_finite_inv (x y : npfloat) :
  Np.is_finite (x + y) -> Np.is_finite x /\ Np.is_finite y.
Proof. destruct x, y; cbn; tauto. Qed.

Lemma sub_finite_inv (x y : npfloat) :
  Np.is_finite (x - y) -> Np.is_finite x /\ Np.is_finite y.
Proof. destruct x, y; cbn; tauto. Qed.

Lemma fold_add_finite_inv (l : list npfloat) (a : npfloat) :
  Np.is_finite (fold_left Np.add l a) ->
  Np.is_finite a /\ Forall Np.is_finite l.
Proof.
  revert a; induction l as [|x l IH]; intros a H; cbn in *.
  - split; [exact H|constructor].
  - destruct (IH _ H) as [Hax Hl].
    destruct (add_finite_inv _ _ Hax). split; [|constructor]; assumption.
Qed.

Lemma sum_finite_inv (l : list npfloat) :
  Np.is_finite (Np.sum l) -> Forall Np.is_finite l.
Proof. intros H. now apply fold_add_finite_inv in H. Qed.

Lemma fold_add_nan (l : list npfloat) : fold_left Np.add l NaN = NaN.
Proof. induction l as [|x l IH]; [reflexivity|exact IH]. Qed.

Lemma add_nan_r (x : npfloat) : (x + NaN)%np = NaN.
Proof. now destruct x. Qed.

Lemma sub_nan_r (x : npfloat) : (x - NaN)%np = NaN.
Proof. now destruct x. Qed.

Lemma fold_add_nan_in (l : list npfloat) (a : npfloat) :
  In NaN l -> fold_left Np.add l a = NaN.
Proof.
  revert a; induction l as [|x l IH]; intros a H; [destruct H|].
  destruct H as [->|H]; cbn.
  - rewrite add_nan_r. apply fold_add_nan.
  - now apply IH.
Qed.

Lemma sum_nan_in (l : list npfloat) : In NaN l -> Np.sum l = NaN.
Proof. apply fold_add_nan_in. Qed.

(** Nothing divided by [2 * 0^2] is finite. *)
Lemma div_by_zero_sig2 (x : npfloat) :
  ~ Np.is_finite (x / (Fin 2 * Np.square (Fin 0)))%np.
Proof.
  unfold Np.square. cbn [Np.mul].
  destruct x as [| | |a]; cbn [Np.div]; unfold Np.inf_of_sign;
    replace (Reqb (2 * (0 * 0)) 0) with true
      by (symmetry; apply Reqb_true; lra);
    try (destruct (Reqb a 0));
    repeat match goal with
           | |- context [Rltb ?u ?v] => destruct (Rltb u v)
           end; cbn; tauto.
Qed.

(** The normalisation term at zero counts: [0 * (1 - log 0)] is
    [0 * inf], which is NaN. *)
Lemma zero_counts_term : (Fin 0 * (Fin 1 - Np.log (Fin 0)))%np = NaN.
Proof.
  unfold Np.log.
  replace (Rltb 0 0) with false by (symmetry; apply Rltb_false; lra).
  rewrite Reqb_refl. cbn. now rewrite Reqb_refl.
Qed.

Lemma profiled_llh_i_sigma0 (d s sdt o odt f : npfloat) :
  ~ Np.is_finite (profiled_llh_i d s sdt o odt (Np.square (Fin 0)) f).
Proof.
  unfold profiled_llh_i. intros H.
  apply sub_finite_inv in H as [H _].
  apply add_finite_inv in H as [_ H].
  exact (div_by_zero_sig2 _ H).
Qed.

Lemma profiled_llh_i_zero_counts (s sdt o odt sig2 f : npfloat) :
  profiled_llh_i (Fin 0) s sdt o odt sig2 f = NaN.
Proof.
  unfold profiled_llh_i. rewrite zero_counts_term. apply sub_nan_r.
Qed.

(** Arrays of one length broadcast, entry by entry. *)
Lemma broadcast4_nth (a b c d : list npfloat) :
  length b = length a -> length c = length a -> length d = length a ->
  exists bins,
    broadcast4 a b c d = Some bins
    /\ forall i x y z w,
         nth_error a i = Some x -> nth_error b i = Some y ->
         nth_error c i = Some z -> nth_error d i = Some w ->
         nth_error bins i = Some (x, y, z, w).
Proof.
  revert b c d.
  induction a as [|x0 a IH]; intros [|y0 b] [|z0 c] [|w0 d] Lb Lc Ld;
    simpl in Lb, Lc, Ld; try discriminate.
  - exists []. split; [reflexivity|]. intros [|i]; discriminate.
  - destruct (IH b c d) as (bins & E & N); try lia.
    exists ((x0, y0, z0, w0) :: bins). cbn [broadcast4]. rewrite E.
    split; [reflexivity|].
    intros [|i] x y z w; cbn [nth_error].
    + now intros [= <-] [= <-] [= <-] [= <-].
    + apply N.
Qed.

(** The summed likelihood is one term per energy bin. *)
Lemma profiled_bkg_llh_terms
  (data_cnts sig_rate off_cnts off_cnts_err : list npfloat)
  (sdt odt : npfloat) :
  length sig_rate = length data_cnts ->
  length off_cnts = length data_cnts ->
  length off_cnts_err = length data_cnts ->
  exists terms,
    profiled_bkg_llh data_cnts sig_rate sdt off_cnts odt off_cnts_err
    = Some (Np.sum terms)
    /\ forall i d s o e,
         nth_error data_cnts i = Some d -> nth_error sig_rate i = Some s ->
         nth_error off_cnts i = Some o ->
         nth_error off_cnts_err i = Some e ->
         nth_error terms i
         = Some (profiled_llh_i d s sdt o odt (Np.square e)
                   (profiled_f_i d s sdt o odt (Np.square e))).
Proof.
  intros Ls Lo Le.
  destruct (broadcast4_nth data_cnts sig_rate off_cnts off_cnts_err
              Ls Lo Le) as (bins & E & N).
  unfold profiled_bkg_llh, profiled_bkg_llh_ret_f. rewrite E.
  cbn [bind option_map fst]. eexists. split; [reflexivity|].
  intros i d s o e Hd Hs Ho He.
  rewrite nth_error_map, (N i d s o e Hd Hs Ho He). reflexivity.
Qed.

(** C3, as amended.  [profiled_bkg_llh] has no special case for an
    off-region uncertainty of 0: when [off_cnts_err] is 0 in some energy bin,
    the Gaussian term of that bin is a division by [2 * 0^2], and the value
    returned is not finite (it is NaN or an infinity), whatever the other
    arguments are. *)
Theorem profiled_bkg_llh_sigma_zero
  (data_cnts sig_rate off_cnts off_cnts_err : list npfloat)
  (sdt odt : npfloat) (i : nat) :
  length sig_rate = length data_cnts ->
  length off_cnts = length data_cnts ->
  length off_cnts_err = length data_cnts ->
  nth_error off_cnts_err i = Some (Fin 0) ->
  exists llh,
    profiled_bkg_llh data_cnts sig_rate sdt off_cnts odt off_cnts_err
    = Some llh
    /\ ~ Np.is_finite llh.
Proof.
  intros Ls Lo Le He.
  destruct (profiled_bkg_llh_terms data_cnts sig_rate off_cnts off_cnts_err
              sdt odt Ls Lo Le) as (terms & E & N).
  exists (Np.sum terms). split; [exact E|]. intros Hfin.
  assert (Hi : (i < length off_cnts_err)%nat)
    by (apply nth_error_Some; congruence).
  destruct (nth_error data_cnts i) as [d|] eqn:Di;
    [|apply nth_error_None in Di; lia].
  destruct (nth_error sig_rate i) as [s|] eqn:Si;
    [|apply nth_error_None in Si; lia].
  destruct (nth_error off_cnts i) as [o|] eqn:Oi;
    [|apply nth_error_None in Oi; lia].
  specialize (N i d s o (Fin 0) Di Si Oi He).
  apply sum_finite_inv in Hfin. rewrite Forall_forall in Hfin.
  exact (profiled_llh_i_sigma0 _ _ _ _ _ _ (Hfin _ (nth_error_In _ _ N))).
Qed.

Lemma profiled_bkg_llh_sigma_zero_witness :
  exists llh,
    profiled_bkg_llh [Fin 3] [Fin 0] (Fin 0.128) [Fin 0] (Fin 20) [Fin 0]
    = Some llh
    /\ ~ Np.is_finite llh.
Proof.
  apply (profiled_bkg_llh_sigma_zero [Fin 3] [Fin 0] [Fin 0] [Fin 0]
           (Fin 0.128) (Fin 20) 0); reflexivity.
Defined.

(** Evaluates NumPy arithmetic on concrete numbers. *)
Ltac np_eval :=
  repeat (cbn [Np.add Np.sub Np.mul Np.div Np.neg Np.square Np.abs];
          unfold Np.log, Np.sqrt, Np.inf_of_sign; Rcompare).

(** C3, counterexample.  Three counts in a bin of 0.128 s, no signal, and an
    off-region of 20 s with 0 counts, hence uncertainty 0: the profiled rate
    is 0, the likelihood is [0 - 3 log 0 + 0/0 - ...], and the value returned
    is NaN. *)
Lemma profiled_bkg_llh_sigma_zero_nan :
  profiled_bkg_llh [Fin 3] [Fin 0] (Fin 0.128) [Fin 0] (Fin 20) [Fin 0]
  = Some NaN.
Proof.
  unfold profiled_bkg_llh, profiled_bkg_llh_ret_f.
  cbn [broadcast4 bind map option_map fst]. do 1 f_equal.
  assert (F : profiled_f_i (Fin 3) (Fin 0) (Fin 0.128) (Fin 0) (Fin 20)
                (Np.square (Fin 0)) = Fin 0).
  { rewrite profiled_f_i_finite by lra. f_equal.
    unfold quad_b, quad_c.
    replace ((0.128 * 0 ^ 2 - 20 * 0 + 20 ^ 2 * 0) ^ 2
             - 4 * 20 ^ 2 * (0.128 * 0 ^ 2 * 0 - 3 * 0 ^ 2 - 20 * 0 * 0))
      with 0 by lra.
    rewrite sqrt_0. lra. }
  rewrite F. unfold Np.sum, profiled_llh_i. cbn [fold_left].
  np_eval. reflexivity.
Qed.

(** C4, as amended.  [profiled_bkg_llh] does not omit the normalisation term
    for a bin without counts: when [data_cnts] is 0 in some energy bin, the
    term [0 * (1 - log 0)] of that bin is [0 * inf], and the value returned
    is NaN, whatever the other arguments are; no exception is raised. *)
Theorem profiled_bkg_llh_zero_counts
  (data_cnts sig_rate off_cnts off_cnts_err : list npfloat)
  (sdt odt : npfloat) (i : nat) :
  length sig_rate = length data_cnts ->
  length off_cnts = length data_cnts ->
  length off_cnts_err = length data_cnts ->
  nth_error data_cnts i = Some (Fin 0) ->
  profiled_bkg_llh data_cnts sig_rate sdt off_cnts odt off_cnts_err
  = Some NaN.
Proof.
  intros Ls Lo Le Hd.
  destruct (profiled_bkg_llh_terms data_cnts sig_rate off_cnts off_cnts_err
              sdt odt Ls Lo Le) as (terms & E & N).
  rewrite E. f_equal. apply sum_nan_in.
  assert (Hi : (i < length data_cnts)%nat)
    by (apply nth_error_Some; congruence).
  destruct (nth_error sig_rate i) as [s|] eqn:Si;
    [|apply nth_error_None in Si; lia].
  destruct (nth_error off_cnts i) as [o|] eqn:Oi;
    [|apply nth_error_None in Oi; lia].
  destruct (nth_error off_cnts_err i) as [e|] eqn:Ei;
    [|apply nth_error_None in Ei; lia].
  specialize (N i (Fin 0) s o e Hd Si Oi Ei).
  rewrite profiled_llh_i_zero_counts in N.
  exact (nth_error_In _ _ N).
Qed.

Lemma profiled_bkg_llh_zero_counts_witness :
  profiled_bkg_llh [Fin 5; Fin 0] [Fin 1; Fin 1] (Fin 1) [Fin 100; Fin 100]
    (Fin 10) [Fin 50; Fin 50] = Some NaN.
Proof.
  apply (profiled_bkg_llh_zero_counts [Fin 5; Fin 0] [Fin 1; Fin 1]
           [Fin 100; Fin 100] [Fin 50; Fin 50] (Fin 1) (Fin 10) 1);
    reflexivity.
Defined.

(** C4, counterexample.  No counts in the only energy bin, with a signal
    rate of 1, 100 off-region counts in 10 s and an uncertainty of 50: the
    value returned is NaN, not a finite number. *)
Lemma profiled_bkg_llh_zero_counts_nan :
  profiled_bkg_llh [Fin 0] [Fin 1] (Fin 1) [Fin 100] (Fin 10) [Fin 50]
  = Some NaN
  /\ ~ Np.is_finite NaN.
Proof.
  split; [|now cbn].
  unfold profiled_bkg_llh, profiled_bkg_llh_ret_f.
  cbn [broadcast4 bind map option_map fst]. f_equal.
  rewrite profiled_llh_i_zero_counts. reflexivity.
Qed.

(** ** Spectral template interpolator *)

Lemma scale_nan_ones (n : nat) : Npa.scale NaN (Npa.ones n) = repeat NaN n.
Proof.
  unfold Npa.scale, Npa.ones. induction n as [|n IH]; [reflexivity|].
  cbn [repeat map]. now rewrite IH.
Qed.

(** C5.  For an interpolator built by [__init__] on a grid [ind_ax], a query
    at [x <= np.min ind_ax] or [x >= np.max ind_ax] returns, without error, a
    vector of NaNs with one entry per column of the template matrix. *)
Theorem cnts_norm_intp_out_of_bounds (mat : ndarray2) (ax : list npfloat)
  (lo hi x : npfloat) :
  Npa.min ax = Some lo ->
  Npa.max ax = Some hi ->
  (x <=? lo)%np = true \/ (x >=? hi)%np = true ->
  exists self,
    cnts_norm_intp_init mat ax = Some self
    /\ cnts_norm_intp_call self x = Some (repeat NaN (shape1 mat))
    /\ length (repeat NaN (shape1 mat)) = shape1 mat.
Proof.
  intros Hlo Hhi Hx. unfold cnts_norm_intp_init. rewrite Hlo, Hhi.
  cbn [bind]. eexists. split; [reflexivity|]. split; [|apply repeat_length].
  unfold cnts_norm_intp_call. cbn [ind0 ind1 cnt_ebins_norm_ind_mat].
  replace ((x <=? lo)%np || (x >=? hi)%np) with true
    by (destruct Hx as [-> | ->]; [reflexivity|now rewrite orb_true_r]).
  now rewrite scale_nan_ones.
Qed.

Lemma example_ax_min : Npa.min example_ax = Some (Fin 0).
Proof.
  unfold Npa.min, example_ax, Npa.min2. repeat (cbn; Rcompare). reflexivity.
Qed.

Lemma example_ax_max : Npa.max example_ax = Some (Fin 2).
Proof.
  unfold Npa.max, example_ax, Npa.max2. repeat (cbn; Rcompare). reflexivity.
Qed.

Lemma cnts_norm_intp_out_of_bounds_witness :
  exists self,
    cnts_norm_intp_init example_mat example_ax = Some self
    /\ cnts_norm_intp_call self (Fin 2.5)
       = Some (repeat NaN (shape1 example_mat))
    /\ length (repeat NaN (shape1 example_mat)) = shape1 example_mat.
Proof.
  apply (cnts_norm_intp_out_of_bounds example_mat example_ax (Fin 0) (Fin 2)
           (Fin 2.5) example_ax_min example_ax_max).
  right. unfold Np.geb. cbn. apply Rleb_true. lra.
Defined.

(** C6, counterexample.  On the grid 0, 1, 2 the query at the grid point 0,
    the minimum of the grid, returns NaNs and not the stored row. *)
Lemma cnts_norm_intp_first_grid_point_nan :
  exists self,
    cnts_norm_intp_init example_mat example_ax = Some self
    /\ nth_error example_ax 0 = Some (Fin 0)
    /\ nth_error (rows example_mat) 0 = Some [Fin 0.2; Fin 0.8]
    /\ cnts_norm_intp_call self (Fin 0) = Some [NaN; NaN].
Proof.
  unfold cnts_norm_intp_init. rewrite example_ax_min, example_ax_max.
  cbn [bind]. eexists. split; [reflexivity|].
  split; [reflexivity|]. split; [reflexivity|].
  unfold cnts_norm_intp_call. cbn [ind0 ind1 cnt_ebins_norm_ind_mat].
  cbn [Np.leb]. Rcompare. reflexivity.
Qed.

(** *** Minimum, maximum and nearest point of a finite grid *)

Lemma fold_min2_fin (t : list R) (a : R) :
  exists m, fold_left Npa.min2 (map Fin t) (Fin a) = Fin m
            /\ m <= a /\ Forall (fun v => m <= v) t.
Proof.
  revert a; induction t as [|v t IH]; intros a; cbn [map fold_left].
  - exists a. repeat split; [lra|constructor].
  - unfold Npa.min2 at 2. cbn [Npa.is_nanb orb Np.ltb].
    destruct (Rltb v a) eqn:C.
    + apply Rltb_true in C. destruct (IH v) as (m & E & Hm & Ht).
      exists m. repeat split; [exact E|lra|constructor; assumption].
    + apply Rltb_false in C. destruct (IH a) as (m & E & Hm & Ht).
      exists m. repeat split; [exact E|lra|constructor; [lra|assumption]].
Qed.

Lemma fold_max2_fin (t : list R) (a : R) :
  exists m, fold_left Npa.max2 (map Fin t) (Fin a) = Fin m
            /\ a <= m /\ Forall (fun v => v <= m) t.
Proof.
  revert a; induction t as [|v t IH]; intros a; cbn [map fold_left].
  - exists a. repeat split; [lra|constructor].
  - unfold Npa.max2 at 2. cbn [Npa.is_nanb orb Np.ltb].
    destruct (Rltb a v) eqn:C.
    + apply Rltb_true in C. destruct (IH v) as (m & E & Hm & Ht).
      exists m. repeat split; [exact E|lra|constructor; assumption].
    + apply Rltb_false in C. destruct (IH a) as (m & E & Hm & Ht).
      exists m. repeat split; [exact E|lra|constructor; [lra|assumption]].
Qed.

Lemma min_fin_lower (g : list R) (a : R) :
  In a g -> exists m, Npa.min (map Fin g) = Some (Fin m) /\ m <= a.
Proof.
  destruct g as [|g0 t]; [intros []|]. intros Ha.
  destruct (fold_min2_fin t g0) as (m & E & Hm & Ht).
  exists m. cbn [map Npa.min]. rewrite E. split; [reflexivity|].
  destruct Ha as [<-|Ha]; [exact Hm|].
  rewrite Forall_forall in Ht. now apply Ht.
Qed.

Lemma max_fin_upper (g : list R) (b : R) :
  In b g -> exists m, Npa.max (map Fin g) = Some (Fin m) /\ b <= m.
Proof.
  destruct g as [|g0 t]; [intros []|]. intros Hb.
  destruct (fold_max2_fin t g0) as (m & E & Hm & Ht).
  exists m. cbn [map Npa.max]. rewrite E. split; [reflexivity|].
  destruct Hb as [<-|Hb]; [exact Hm|].
  rewrite Forall_forall in Ht. now apply Ht.
Qed.

(** Once the running minimum is 0 and the rest is positive, the scan keeps
    its index. *)
Lemma argmin_from_zero (t : list R) (i bi : nat) :
  Forall (fun v => 0 < v) t ->
  Npa.argmin_from (map Fin t) i (Fin 0) bi = bi.
Proof.
  revert i; induction t as [|v t IH]; intros i H; [reflexivity|].
  inversion H as [|? ? Hv Ht]; subst. cbn [map Npa.argmin_from Npa.is_nanb
    orb Np.ltb].
  replace (Rltb v 0) with false by (symmetry; apply Rltb_false; lra).
  now apply IH.
Qed.

(** The scan finds the only 0 of a list of otherwise positive values. *)
Lemma argmin_from_unique_zero (t : list R) (k i bi : nat) (best : R) :
  0 < best ->
  nth_error t k = Some 0 ->
  (forall j v, nth_error t j = Some v -> j <> k -> 0 < v) ->
  Npa.argmin_from (map Fin t) i (Fin best) bi = (i + k)%nat.
Proof.
  revert k i bi best; induction t as [|v t IH]; intros k i bi best Hb Hk Hpos.
  - destruct k; discriminate.
  - cbn [map Npa.argmin_from Npa.is_nanb orb Np.ltb].
    destruct k as [|k].
    + injection Hk as ->.
      replace (Rltb 0 best) with true by (symmetry; apply Rltb_true; lra).
      rewrite argmin_from_zero; [lia|].
      apply Forall_forall. intros v Hv.
      destruct (In_nth_error _ _ Hv) as [j Hj].
      apply (Hpos (S j) v Hj). lia.
    + assert (Hv : 0 < v) by (apply (Hpos 0%nat v eq_refl); lia).
      assert (Hrec : forall j w, nth_error t j = Some w -> j <> k -> 0 < w).
      { intros j w Hj Hjk. apply (Hpos (S j) w Hj). lia. }
      destruct (Rltb v best).
      * rewrite (IH k (S i) i v Hv Hk Hrec). lia.
      * rewrite (IH k (S i) bi best Hb Hk Hrec). lia.
Qed.

Lemma argmin_unique_zero (t : list R) (k : nat) :
  nth_error t k = Some 0 ->
  (forall j v, nth_error t j = Some v -> j <> k -> 0 < v) ->
  Npa.argmin (map Fin t) = Some k.
Proof.
  intros Hk Hpos. destruct t as [|v t]; [destruct k; discriminate|].
  cbn [map Npa.argmin]. f_equal. destruct k as [|k].
  - injection Hk as ->. apply argmin_from_zero.
    apply Forall_forall. intros v Hv.
    destruct (In_nth_error _ _ Hv) as [j Hj].
    apply (Hpos (S j) v Hj). lia.
  - rewrite (argmin_from_unique_zero t k 1 0 v).
    + reflexivity.
    + apply (Hpos 0%nat v eq_refl). lia.
    + exact Hk.
    + intros j w Hj Hjk. apply (Hpos (S j) w Hj). lia.
Qed.

(** *** Python subscripts *)

Lemma py_index_nat {A : Type} (l : list A) (k : nat) :
  py_index l (Z.of_nat k) = nth_error l k.
Proof.
  unfold py_index. destruct (Z.leb_spec 0 (Z.of_nat k)); [|lia].
  now rewrite Nat2Z.id.
Qed.

(** The subscript [k - 1]: the element before, or the last one for
    [k = 0]. *)
Lemma py_index_pred {A : Type} (l : list A) (k : nat) :
  (k < length l)%nat ->
  py_index l (Z.of_nat k - 1)
  = nth_error l (if (k =? 0)%nat then length l - 1 else k - 1)%nat.
Proof.
  intros Hk. unfold py_index. destruct k as [|k].
  - cbn [Nat.eqb].
    destruct (Z.leb_spec 0 (Z.of_nat 0 - 1)); [lia|].
    destruct (Z.leb_spec (- Z.of_nat (length l)) (Z.of_nat 0 - 1)); [|lia].
    f_equal. lia.
  - cbn [Nat.eqb].
    destruct (Z.leb_spec 0 (Z.of_nat (S k) - 1)); [|lia].
    f_equal. lia.
Qed.

Lemma two_elements (g : list R) (a x : R) :
  In a g -> In x g -> a <> x -> (2 <= length g)%nat.
Proof.
  destruct g as [|g0 [|g1 t]]; cbn; intros Ha Hx Hne;
    [ destruct Ha
    | destruct Ha as [<-|[]], Hx as [<-|[]]; now destruct Hne
    | lia ].
Qed.

(** Weights 1 and 0 give back the first of two finite rows. *)
Lemma blend_one_zero (c : R) (row0 row1 : list npfloat) :
  c = 1 ->
  Forall Np.is_finite row0 -> Forall Np.is_finite row1 ->
  length row1 = length row0 ->
  zip_with Np.add (Npa.scale (Fin c) row0)
    (Npa.scale (Fin 1 - Fin c)%np row1) = row0.
Proof.
  intros ->. revert row1; induction row0 as [|u row0 IH];
    intros [|v row1] H0 H1 L; cbn in L; try discriminate; [reflexivity|].
  inversion H0 as [|? ? Hu H0']; inversion H1 as [|? ? Hv H1']; subst.
  unfold zip_with, Npa.scale in *. cbn [map combine fst snd].
  rewrite IH by (assumption || lia). f_equal.
  destruct u as [| | |u], v as [| | |v]; try contradiction.
  cbn. f_equal. ring.
Qed.

(** C6, as amended.  For a grid of pairwise distinct finite indices and a
    template matrix with one row of finite entries per grid point, a query
    exactly at a grid point that is neither the smallest nor the largest
    point of the grid returns the stored row of that grid point unchanged. *)
Theorem cnts_norm_intp_interior_grid_point (mat : ndarray2) (g : list R)
  (k : nat) (x a b : R) (row : list npfloat) :
  NoDup g ->
  ndarray2_wf mat ->
  shape0 mat = length g ->
  Forall (Forall Np.is_finite) (rows mat) ->
  nth_error g k = Some x ->
  nth_error (rows mat) k = Some row ->
  In a g -> In b g -> a < x < b ->
  exists self,
    cnts_norm_intp_init mat (map Fin g) = Some self
    /\ cnts_norm_intp_call self (Fin x) = Some row.
Proof.
  intros Hnd [Hrows Hcols] Hshape Hfin Hk Hrow Ha Hb [Hax Hxb].
  destruct (min_fin_lower g a Ha) as (lo & Elo & Hlo).
  destruct (max_fin_upper g b Hb) as (hi & Ehi & Hhi).
  unfold cnts_norm_intp_init. rewrite Elo, Ehi. cbn [bind].
  eexists. split; [reflexivity|].
  unfold cnts_norm_intp_call.
  cbn [ind0 ind1 ind_ax cnt_ebins_norm_ind_mat Np.leb Np.geb].
  unfold Np.geb. cbn [Np.leb].
  replace (Rleb x lo) with false by (symmetry; apply Rleb_false; lra).
  replace (Rleb hi x) with false by (symmetry; apply Rleb_false; lra).
  cbn [orb].
  (* the nearest grid point is the point itself *)
  assert (Hlen : (k < length g)%nat) by (apply nth_error_Some; congruence).
  assert (H2 : (2 <= length g)%nat)
    by (apply (two_elements g a x Ha (nth_error_In _ _ Hk)); lra).
  rewrite map_map.
  replace (map (fun r => Np.abs (Fin x - Fin r)) g)
    with (map Fin (map (fun r => Rabs (x + - r)) g))
    by (rewrite map_map; reflexivity).
  rewrite (argmin_unique_zero _ k); cycle 1.
  { rewrite nth_error_map, Hk. cbn. f_equal.
    replace (x + - x) with 0 by ring. apply Rabs_R0. }
  { intros j v Hj Hjk. rewrite nth_error_map in Hj.
    destruct (nth_error g j) as [r|] eqn:Gj; [|discriminate].
    injection Hj as <-. apply Rabs_pos_lt. intros E.
    assert (r = x) by lra. subst r.
    apply Hjk. apply (proj1 (NoDup_nth_error g) Hnd); [|congruence].
    apply nth_error_Some. congruence. }
  cbn [bind]. rewrite py_index_nat, nth_error_map, Hk. cbn [option_map bind].
  unfold Np.gtb. cbn [Np.ltb].
  replace (Rltb x x) with false by (symmetry; apply Rltb_false; lra).
  (* its neighbour is another grid point *)
  set (k1 := (if (k =? 0)%nat then length g - 1 else k - 1)%nat).
  assert (Hk1 : (k1 < length g)%nat)
    by (unfold k1; destruct (Nat.eqb_spec k 0); lia).
  assert (Hk1k : k1 <> k)
    by (unfold k1; destruct (Nat.eqb_spec k 0); lia).
  rewrite py_index_pred by (rewrite length_map; exact Hlen).
  rewrite length_map. fold k1. rewrite nth_error_map.
  destruct (nth_error g k1) as [y|] eqn:Gy;
    [|apply nth_error_None in Gy; lia].
  cbn [option_map bind].
  assert (Hxy : x <> y).
  { intros ->. apply Hk1k.
    apply (proj1 (NoDup_nth_error g) Hnd); [exact Hk1|congruence]. }
  rewrite py_index_nat, Hrow. cbn [bind].
  rewrite py_index_pred by lia. rewrite Hrows, Hshape. fold k1.
  destruct (nth_error (rows mat) k1) as [row1|] eqn:Grow1;
    [|apply nth_error_None in Grow1; lia].
  cbn [bind]. f_equal.
  cbn [Np.sub Np.neg Np.add Np.abs Np.div].
  assert (Hpos : 0 < Rabs (x + - y)) by (apply Rabs_pos_lt; lra).
  replace (Reqb (Rabs (x + - y)) 0) with false
    by (symmetry; apply Reqb_false; lra).
  rewrite Forall_forall in Hfin, Hcols.
  apply blend_one_zero.
  - field. lra.
  - apply Hfin. eapply nth_error_In, Hrow.
  - apply Hfin. eapply nth_error_In, Grow1.
  - rewrite (Hcols row1), (Hcols row); [reflexivity| |];
      eapply nth_error_In; eassumption.
Qed.

Lemma example_mat_wf : ndarray2_wf example_mat.
Proof. split; [reflexivity|repeat constructor]. Qed.

Lemma cnts_norm_intp_interior_grid_point_witness :
  exists self,
    cnts_norm_intp_init example_mat (map Fin [0; 1; 2]) = Some self
    /\ cnts_norm_intp_call self (Fin 1) = Some [Fin 0.5; Fin 0.5].
Proof.
  apply (cnts_norm_intp_interior_grid_point example_mat [0; 1; 2] 1 1 0 2
           [Fin 0.5; Fin 0.5]).
  - repeat constructor; cbn; intros H;
      repeat (destruct H as [H|H]; [lra|]); exact H.
  - exact example_mat_wf.
  - reflexivity.
  - repeat constructor.
  - reflexivity.
  - reflexivity.
  - cbn; tauto.
  - cbn; tauto.
  - lra.
Defined.

(** ** Objective of the per-bin optimiser *)

Lemma fold_min2_lower (t : list R) (a : R) :
  Forall (fun v => a <= v) t ->
  fold_left Npa.min2 (map Fin t) (Fin a) = Fin a.
Proof.
  induction t as [|v t IH]; intros H; [reflexivity|].
  inversion H as [|? ? Hv Ht]; subst. cbn [map fold_left].
  unfold Npa.min2 at 2. cbn [Npa.is_nanb orb Np.ltb].
  replace (Rltb v a) with false by (symmetry; apply Rltb_false; lra).
  now apply IH.
Qed.

Lemma fold_max2_bounded (t : list R) (a z : R) :
  a <= z -> Forall (fun v => v <= z) t ->
  exists m, fold_left Npa.max2 (map Fin t) (Fin a) = Fin m /\ m <= z.
Proof.
  revert a; induction t as [|v t IH]; intros a Ha H.
  - exists a. now split.
  - inversion H as [|? ? Hv Ht]; subst. cbn [map fold_left].
    unfold Npa.max2 at 2. cbn [Npa.is_nanb orb Np.ltb].
    destruct (Rltb a v); now apply IH.
Qed.

(** The grid of [main] runs from -1.5 to 3.5. *)
Lemma main_ind_ax_bounds :
  Npa.min main_ind_ax = Some (Fin (-1.5))
  /\ Npa.max main_ind_ax = Some (Fin 3.5).
Proof.
  unfold main_ind_ax, Npa.linspace.
  replace (20 * 5 + 1)%nat with 101%nat by reflexivity.
  replace (INR (101 - 1)) with 100
    by (rewrite INR_IZR_INZ; reflexivity).
  set (pt := fun i : nat => -1.5 + INR i * ((3.5 - -1.5) / 100)).
  rewrite <- (map_map pt Fin).
  assert (Hpt : forall i, (i <= 100)%nat -> -1.5 <= pt i <= 3.5).
  { intros i Hi. unfold pt. pose proof (pos_INR i) as H0.
    apply le_INR in Hi. rewrite (INR_IZR_INZ 100) in Hi.
    change (IZR (Z.of_nat 100)) with 100 in Hi. lra. }
  assert (Hall : forall (P : R -> Prop) n,
             (forall i, (i < n)%nat -> P (pt i)) ->
             Forall P (map pt (seq 0 n))).
  { intros P n H. apply Forall_forall. intros v Hv.
    apply in_map_iff in Hv as (i & <- & Hi). apply in_seq in Hi.
    apply H. lia. }
  split.
  - change (seq 0 101) with (0%nat :: seq 1 100).
    cbn [map Npa.min]. rewrite fold_min2_lower.
    + do 2 f_equal. unfold pt. cbn [INR]. lra.
    + replace (pt 0%nat) with (-1.5) by (unfold pt; cbn [INR]; lra).
      apply Forall_forall. intros v Hv.
      apply in_map_iff in Hv as (i & <- & Hi). apply in_seq in Hi.
      apply Hpt. lia.
  - replace (seq 0 101) with (0%nat :: seq 1 99 ++ [100%nat])
      by reflexivity.
    cbn [map Npa.max]. rewrite map_app, map_app, fold_left_app.
    destruct (fold_max2_bounded (map pt (seq 1 99)) (pt 0%nat) 3.5)
      as (m & E & Hm).
    + apply Hpt. lia.
    + apply Forall_forall. intros v Hv.
      apply in_map_iff in Hv as (i & <- & Hi). apply in_seq in Hi.
      apply Hpt. lia.
    + rewrite E. cbn [map fold_left]. unfold Npa.max2.
      cbn [Npa.is_nanb orb Np.ltb].
      assert (H100 : pt 100%nat = 3.5).
      { unfold pt. rewrite (INR_IZR_INZ 100).
        change (IZR (Z.of_nat 100)) with 100. lra. }
      rewrite H100. destruct (Rltb m 3.5) eqn:C; [reflexivity|].
      apply Rltb_false in C. do 2 f_equal. lra.
Qed.

(** C7, as amended.  When the spectral index [theta[1]] is below -1 or
    above 3, [rate_llh2min] returns +inf, whatever the other arguments are,
    and does not call the interpolator.  Hence every index the interpolator
    is called with is [theta[1]] itself, and it is either a number of
    [-1, 3], strictly inside (-1.5, 3.5), the extent of the grid built in
    [main], or NaN: a NaN index fails both comparisons of the test and is
    handed to the interpolator.  No index that is queried meets the
    out-of-bounds test of the grid of [main]. *)
Theorem rate_llh2min_index_penalty
  (theta data bkg_cnts bkg_err : list npfloat) (sig_dt bkg_dt : npfloat)
  (cnorm_obj : cnts_norm_intp) (theta0 ind : npfloat) :
  py_index theta 0 = Some theta0 ->
  py_index theta 1 = Some ind ->
  let res := rate_llh2min theta data bkg_cnts bkg_err sig_dt bkg_dt
               cnorm_obj in
  ((ind <? Fin (-1))%np = true \/ (ind >? Fin 3)%np = true ->
   res = {| queries := []; value := Some PInf |})
  /\ (forall q, In q (queries res) ->
        q = ind
        /\ (q = NaN
            \/ exists r, q = Fin r /\ -1 <= r <= 3 /\ -1.5 < r < 3.5)
        /\ (q <=? Fin (-1.5))%np || (q >=? Fin 3.5)%np = false)
  /\ (ind = NaN -> queries res = [NaN])
  /\ Npa.min main_ind_ax = Some (Fin (-1.5))
  /\ Npa.max main_ind_ax = Some (Fin 3.5).
Proof.
  intros H0 H1 res. unfold res, rate_llh2min. rewrite H0, H1.
  split; [|split; [|split; [|exact main_ind_ax_bounds]]].
  - intros [H|H]; rewrite H; [reflexivity|now rewrite orb_true_r].
  - destruct ((ind <? Fin (-1))%np || (ind >? Fin 3)%np) eqn:C;
      cbn [queries]; [intros q []|].
    intros q [<-|[]]. apply orb_false_elim in C as [Clo Chi].
    split; [reflexivity|]. unfold Np.gtb, Np.geb in *.
    destruct ind as [| | |r]; cbn in Clo, Chi |- *; try discriminate.
    + split; [now left|reflexivity].
    + apply Rltb_false in Clo, Chi. split.
      * right. exists r. split; [reflexivity|lra].
      * apply orb_false_intro; apply Rleb_false; lra.
  - intros ->. reflexivity.
Qed.

Lemma rate_llh2min_index_penalty_witness :
  rate_llh2min [Fin 1; Fin 3.2] [Fin 4; Fin 2] [Fin 100; Fin 100]
    [Fin 50; Fin 50] (Fin 0.128) (Fin 20)
    {| ind_ax := example_ax; cnt_ebins_norm_ind_mat := example_mat;
       ind0 := Fin 0; ind1 := Fin 2 |}
  = {| queries := []; value := Some PInf |}.
Proof.
  apply (rate_llh2min_index_penalty [Fin 1; Fin 3.2] [Fin 4; Fin 2]
           [Fin 100; Fin 100] [Fin 50; Fin 50] (Fin 0.128) (Fin 20)
           {| ind_ax := example_ax; cnt_ebins_norm_ind_mat := example_mat;
              ind0 := Fin 0; ind1 := Fin 2 |} (Fin 1) (Fin 3.2)
           eq_refl eq_refl).
  right. unfold Np.gtb. cbn. apply Rltb_true. lra.
Defined.

(** ** Time bins of [main] *)

Lemma nth_map_seq {A : Type} (f : nat -> A) (n i : nat) (d : A) :
  (i < n)%nat -> nth i (map f (seq 0 n)) d = f i.
Proof.
  intros Hi. rewrite (nth_indep _ d (f 0%nat))
    by (now rewrite length_map, length_seq).
  rewrite map_nth, seq_nth by exact Hi. reflexivity.
Qed.

Lemma nth_map_R (f : R -> R) (l : list R) (i : nat) :
  (i < length l)%nat -> nth i (map f l) 0 = f (nth i l 0).
Proof.
  intros Hi. rewrite (nth_indep _ 0 (f 0)) by (now rewrite length_map).
  apply map_nth.
Qed.

Lemma arange_nth (start stop step : R) (i : nat) :
  (i < length (arange start stop step))%nat ->
  nth i (arange start stop step) 0 = start + INR i * step.
Proof.
  unfold arange. rewrite length_map, length_seq. intros Hi.
  now rewrite nth_map_seq.
Qed.

Lemma make_tbins_lengths (trig_time ts bs : R) :
  length (t_bins0 (make_tbins trig_time ts bs))
  = length (arange (-15.008) 15.008 ts)
  /\ length (t_bins1 (make_tbins trig_time ts bs))
     = length (t_bins0 (make_tbins trig_time ts bs)).
Proof. cbn [make_tbins t_bins0 t_bins1]. now rewrite !length_map. Qed.

Lemma make_tbins_nth (trig_time ts bs : R) (i : nat) :
  (i < length (t_bins0 (make_tbins trig_time ts bs)))%nat ->
  nth i (t_bins0 (make_tbins trig_time ts bs)) 0
  = -15.008 + INR i * ts + trig_time
  /\ nth i (t_bins1 (make_tbins trig_time ts bs)) 0
     = nth i (t_bins0 (make_tbins trig_time ts bs)) 0 + bs.
Proof.
  intros Hi. split.
  - cbn [make_tbins t_bins0] in *. rewrite length_map in Hi.
    rewrite nth_map_R by exact Hi. now rewrite arange_nth.
  - cbn [make_tbins t_bins1 t_bins0] in *.
    now rewrite (nth_map_R (fun t => t + bs)).
Qed.

(** In round [ii] the step is [0.064 * 2^ii] and the width is
    [0.128 * 2^ii]. *)
Lemma tbins_round_make (trig_time : R) (ii : nat) :
  tbins_round trig_time ii
  = make_tbins trig_time (0.064 * 2 ^ ii) (0.128 * 2 ^ ii).
Proof.
  induction ii as [|ii IH].
  - cbn [tbins_round Nat.iter nat_rect]. unfold tbins_first.
    f_equal; cbn [pow]; lra.
  - unfold tbins_round in *. cbn [Nat.iter nat_rect] in *.
    fold (Nat.iter ii (tbins_next trig_time) (tbins_first trig_time)).
    rewrite IH. unfold tbins_next. cbn [make_tbins tstep bin_size].
    replace (0.064 * 2 ^ ii * 2) with (0.064 * 2 ^ S ii) by (cbn [pow]; ring).
    replace (0.128 * 2 ^ ii * 2) with (0.128 * 2 ^ S ii) by (cbn [pow]; ring).
    reflexivity.
Qed.

Lemma pow2_pos (i : nat) : 0 < 2 ^ i.
Proof. apply pow_lt. lra. Qed.


(** Round 0 has 469 bins. *)
Lemma first_round_length (trig_time : R) :
  length (t_bins0 (tbins_round trig_time 0)) = 469%nat.
Proof.
  rewrite tbins_round_make.
  rewrite (proj1 (make_tbins_lengths _ _ _)).
  unfold arange. rewrite length_map, length_seq.
  rewrite (Zceil_eq 469); [reflexivity|]. cbn [pow]. lra.
Qed.



(** ** Result table and trials correction *)

Lemma pow2_double_le (i j : nat) : (i < j)%nat -> 2 * 2 ^ i <= 2 ^ j.
Proof.
  intros H. change (2 * 2 ^ i) with (2 ^ S i). apply Rle_pow; [lra|lia].
Qed.

(** The duration classes do not meet: the exposure of round [ii] is close
    to the duration of class [i] only for [i = ii]. *)
Lemma isclose_pow2 (ii i : nat) :
  isclose (0.128 * 2 ^ ii) (0.128 * 2 ^ i) = (i =? ii)%nat.
Proof.
  unfold isclose. pose proof (pow2_pos i) as Hi. pose proof (pow2_pos ii).
  destruct (Nat.eqb_spec i ii) as [->|Hne].
  - apply Rleb_true. replace (0.128 * 2 ^ ii - 0.128 * 2 ^ ii) with 0 by ring.
    rewrite Rabs_R0. pose proof (Rabs_pos (0.128 * 2 ^ ii)). lra.
  - apply Rleb_false.
    assert (1 <= 2 ^ i) by (apply pow_R1_Rle; lra).
    rewrite (Rabs_pos_eq (0.128 * 2 ^ i)) by lra.
    destruct (Nat.lt_ge_cases i ii) as [Hlt|Hge].
    + pose proof (pow2_double_le i ii Hlt).
      rewrite Rabs_pos_eq by lra. lra.
    + assert (Hlt : (ii < i)%nat) by lia.
      pose proof (pow2_double_le ii i Hlt).
      rewrite Rabs_left by lra. lra.
Qed.

Lemma nth_error_zip_with {A B C : Type} (f : A -> B -> C)
  (l1 : list A) (l2 : list B) (k : nat) (a : A) (b : B) :
  nth_error l1 k = Some a -> nth_error l2 k = Some b ->
  nth_error (zip_with f l1 l2) k = Some (f a b).
Proof.
  unfold zip_with. revert l2 k.
  induction l1 as [|x l1 IH]; intros [|y l2] [|k]; cbn; try discriminate.
  - now intros [= ->] [= ->].
  - apply IH.
Qed.

Lemma count_true_map {A B : Type} (p : B -> bool) (f : A -> B)
  (l : list A) :
  count_true p (map f l) = count_true (fun a => p (f a)) l.
Proof.
  unfold count_true. induction l as [|a l IH]; [reflexivity|].
  cbn [map filter]. destruct (p (f a)); cbn [length]; now rewrite IH.
Qed.

(** One entry of [pvals] through the loop over the duration classes. *)
Lemma classes_loop_nth (exps : list R) (c : nat -> npfloat) (k : nat)
  (e : R) (classes : list nat) (pvals : list npfloat) (p : npfloat) :
  nth_error exps k = Some e ->
  nth_error pvals k = Some p ->
  nth_error
    (fold_left (fun pvals i =>
       mask_mul pvals (map (fun e => isclose e (0.128 * 2 ^ i)) exps) (c i))
       classes pvals) k
  = Some (fold_left (fun q i =>
            if isclose e (0.128 * 2 ^ i) then (q * c i)%np else q)
            classes p).
Proof.
  intros He. revert pvals p.
  induction classes as [|i classes IH]; intros pvals p Hp; [exact Hp|].
  cbn [fold_left]. apply IH. unfold mask_mul.
  rewrite (nth_error_zip_with
             (fun (p : npfloat) (b : bool) => if b then (p * c i)%np else p)
             pvals (map (fun e => isclose e (0.128 * 2 ^ i)) exps) k p
             (isclose e (0.128 * 2 ^ i)) Hp); [reflexivity|].
  now rewrite nth_error_map, He.
Qed.

(** Only the class of the row multiplies its entry. *)
Lemma classes_loop_single (ii : nat) (c : nat -> npfloat) (s n : nat)
  (p : npfloat) :
  fold_left (fun q i =>
     if isclose (0.128 * 2 ^ ii) (0.128 * 2 ^ i) then (q * c i)%np else q)
    (seq s n) p
  = if ((s <=? ii) && (ii <? s + n))%nat then (p * c ii)%np else p.
Proof.
  revert s p; induction n as [|n IH]; intros s p.
  - cbn [seq fold_left].
    destruct (Nat.leb_spec s ii), (Nat.ltb_spec ii (s + 0)); cbn;
      try reflexivity; lia.
  - cbn [seq fold_left]. rewrite isclose_pow2, IH.
    destruct (Nat.eqb_spec s ii) as [->|Hne].
    + replace ((S ii <=? ii)%nat) with false
        by (symmetry; apply Nat.leb_gt; lia).
      replace ((ii <=? ii)%nat) with true
        by (symmetry; apply Nat.leb_le; lia).
      replace ((ii <? ii + S n)%nat) with true
        by (symmetry; apply Nat.ltb_lt; lia).
      reflexivity.
    + destruct (Nat.leb_spec (S s) ii), (Nat.ltb_spec ii (S s + n)),
        (Nat.leb_spec s ii), (Nat.ltb_spec ii (s + S n)); cbn;
        try reflexivity; lia.
Qed.

Lemma in_combine_map {A B : Type} (f : A -> B) (l : list A) (a : A) (b : B) :
  In (a, b) (combine l (map f l)) -> b = f a.
Proof.
  induction l as [|x l IH]; cbn; [intros []|].
  intros [[= -> ->]|H]; [reflexivity|now apply IH].
Qed.

(** Every row of the table comes from a round [ii < N_dbl_dt] and its
    exposure is the bin width of that round. *)
Lemma main_table_exposure (fit : fit_results) (trig_time : R)
  (N_dbl_dt : nat) (r : row) :
  In r (main_table fit trig_time N_dbl_dt) ->
  exists ii, (ii < N_dbl_dt)%nat /\ tstop r - tstart r = 0.128 * 2 ^ ii.
Proof.
  unfold main_table. intros H.
  apply in_flat_map in H as (ii & Hii & H). apply in_seq in Hii.
  apply in_flat_map in H as (dir & _ & H).
  exists ii. split; [lia|].
  unfold subset_table in H. apply in_map_iff in H as ([i [t0 t1]] & <- & H).
  apply in_combine_r in H. rewrite tbins_round_make in H.
  cbn [make_tbins t_bins0 t_bins1] in H.
  apply in_combine_map in H. subst t1.
  destruct (fit ii dir i) as [[[b s] n] p]. cbn [tstop tstart]. ring.
Qed.

(** C2.  For every row of the result table of [main], the final p-value is
    [1 - exp (- q)] with
    [q = chi2_sf (2 * (bkg_llh - sig_llh), 1) * n / dt_tot], where [n] is the
    number of rows of the table whose exposure [tstop - tstart] is in the
    duration class of the row (the bin width [0.128 * 2^ii] of its round) and
    [dt_tot] is [max tstop - min tstart]: the factor is applied once, with
    the count of the row's own class. *)
Theorem trials_correction_per_class (chi2_sf : npfloat -> nat -> npfloat)
  (fit : fit_results) (trig_time : R) (ndbl k : nat) (r : row) :
  let tab := main_table fit trig_time ndbl in
  nth_error tab k = Some r ->
  exists ii hi lo pvals,
    (ii < ndbl)%nat
    /\ tstop r - tstart r = 0.128 * 2 ^ ii
    /\ Rlist_max (map tstop tab) = Some hi
    /\ Rlist_min (map tstart tab) = Some lo
    /\ trials_correction chi2_sf ndbl tab = Some pvals
    /\ nth_error pvals k
       = Some (Fin 1
               - Np.exp
                   (- (chi2_sf (Fin 2 * (bkg_llh r - sig_llh r)) 1%nat
                       * (Fin (INR (class_size ii tab)) / Fin (hi - lo)))))%np.
Proof.
  intros tab Hk.
  destruct (main_table_exposure fit trig_time ndbl r (nth_error_In _ _ Hk))
    as (ii & Hii & Hexp).
  fold tab in Hexp.
  assert (Hne : tab <> []) by (intros E; rewrite E in Hk; destruct k;
                               discriminate).
  destruct (Rlist_max (map tstop tab)) as [hi|] eqn:Ehi;
    [|destruct tab; [now destruct Hne|discriminate]].
  destruct (Rlist_min (map tstart tab)) as [lo|] eqn:Elo;
    [|destruct tab; [now destruct Hne|discriminate]].
  exists ii, hi, lo. eexists.
  split; [exact Hii|]. split; [exact Hexp|].
  split; [reflexivity|]. split; [reflexivity|].
  unfold trials_correction. rewrite Ehi, Elo. cbn [bind].
  split; [reflexivity|].
  rewrite nth_error_map.
  set (exps := map (fun r => tstop r - tstart r) tab).
  rewrite (classes_loop_nth exps
             (fun i =>
                Np.div
                  (Fin (INR (count_true (fun b : bool => b)
                               (map (fun e => isclose e (0.128 * 2 ^ i))
                                  exps))))
                  (Fin (hi - lo)))
             k (tstop r - tstart r) (seq 0 (ndbl + 1))
             (map (fun x => chi2_sf (Fin 2 * x)%np 1%nat)
                (map (fun r => (bkg_llh r - sig_llh r)%np) tab))
             (chi2_sf (Fin 2 * (bkg_llh r - sig_llh r))%np 1%nat)).
  - rewrite Hexp, classes_loop_single.
    replace ((0 <=? ii)%nat && (ii <? 0 + (ndbl + 1))%nat) with true
      by (symmetry; apply andb_true_intro; split;
          [apply Nat.leb_le|apply Nat.ltb_lt]; lia).
    cbn [option_map]. unfold class_size, exps.
    rewrite !count_true_map. reflexivity.
  - unfold exps. now rewrite nth_error_map, Hk.
  - now rewrite !nth_error_map, Hk.
Qed.

(** The table is not empty as soon as there is one round. *)
Lemma main_table_first (fit : fit_results) (trig_time : R) (n : nat) :
  exists r, nth_error (main_table fit trig_time (S n)) 0 = Some r.
Proof.
  unfold main_table. cbn [seq flat_map quad_dicts length].
  pose proof (first_round_length trig_time) as L.
  unfold subset_table at 1.
  destruct (t_bins0 (tbins_round trig_time 0)) as [|a l] eqn:E0;
    [discriminate|].
  pose proof (proj2 (make_tbins_lengths trig_time (0.064 * 2 ^ 0)
                       (0.128 * 2 ^ 0))) as L1.
  rewrite <- tbins_round_make, E0 in L1.
  destruct (t_bins1 (tbins_round trig_time 0)) as [|b l1]; [discriminate|].
  cbn [length seq combine map app]. eexists. reflexivity.
Qed.

Lemma trials_correction_per_class_witness :
  let fit : fit_results := fun _ _ _ => (Fin 2, Fin 1, Fin 10, Fin 1) in
  let chi2_sf := fun (x : npfloat) (_ : nat) => x in
  let tab := main_table fit 0 1 in
  exists r ii hi lo pvals,
    nth_error tab 0 = Some r
    /\ (ii < 1)%nat
    /\ tstop r - tstart r = 0.128 * 2 ^ ii
    /\ Rlist_max (map tstop tab) = Some hi
    /\ Rlist_min (map tstart tab) = Some lo
    /\ trials_correction chi2_sf 1 tab = Some pvals
    /\ nth_error pvals 0
       = Some (Fin 1
               - Np.exp
                   (- (chi2_sf (Fin 2 * (bkg_llh r - sig_llh r)) 1%nat
                       * (Fin (INR (class_size ii tab)) / Fin (hi - lo)))))%np.
Proof.
  intros fit chi2_sf tab.
  destruct (main_table_first fit 0 0) as [r Hr].
  destruct (trials_correction_per_class chi2_sf fit 0 1 0 r Hr)
    as (ii & hi & lo & pvals & H).
  exists r, ii, hi, lo, pvals. split; [exact Hr|exact H].
Defined.

(* ===================================================================== *)
(** * Further properties of the code *)

(** ** Detector-plane images *)

Lemma list_sum_firstn_skipn (n : nat) (l : list nat) :
  (list_sum (firstn n l) + list_sum (skipn n l))%nat = list_sum l.
Proof.
  rewrite <- list_sum_app. now rewrite firstn_skipn.
Qed.

Lemma sum2_firstn_skipn_rows (n : nat) (a : list (list nat)) :
  (sum2 (firstn n a) + sum2 (skipn n a))%nat = sum2 a.
Proof.
  unfold sum2. rewrite <- list_sum_app, <- map_app. now rewrite firstn_skipn.
Qed.

Lemma sum2_firstn_skipn_cols (n : nat) (a : list (list nat)) :
  (sum2 (map (firstn n) a) + sum2 (map (skipn n) a))%nat = sum2 a.
Proof.
  unfold sum2. rewrite !map_map. rewrite <- list_sum_map_add.
  apply list_sum_map_ext. intros r. apply list_sum_firstn_skipn.
Qed.

Lemma dpi2cnts_perquad_total_aux (dpi : list (list nat)) :
  list_sum (dpi2cnts_perquad dpi) = sum2 dpi.
Proof.
  unfold dpi2cnts_perquad. cbn [list_sum fold_right].
  rewrite <- (sum2_firstn_skipn_rows 86 dpi).
  rewrite <- (sum2_firstn_skipn_cols 142 (firstn 86 dpi)).
  rewrite <- (sum2_firstn_skipn_cols 142 (skipn 86 dpi)).
  lia.
Qed.

(** X1.  [dpi2cnts_perquad] splits the image without loss: for an image of
    any shape the four quadrant counts add up to the sum of all pixels, and
    a pixel of column 142 or of row 86 is counted, in the right or the upper
    quadrant: the image with a single count at [dpi[86, 142]] gives
    [0, 0, 1, 0]. *)
Theorem dpi2cnts_perquad_total (dpi : list (list nat)) :
  list_sum (dpi2cnts_perquad dpi) = sum2 dpi
  /\ dpi2cnts_perquad
       (repeat (repeat 0%nat 286) 86
        ++ [repeat 0%nat 142 ++ [1%nat] ++ repeat 0%nat 143]
        ++ repeat (repeat 0%nat 286) 86)
     = [0; 0; 1; 0]%nat.
Proof.
  split; [apply dpi2cnts_perquad_total_aux|].
  vm_compute. reflexivity.
Qed.

Lemma sum2_indicator (dmask : list (list Z)) :
  sum2 (map (map (fun v => if (v =? 0)%Z then 1%nat else 0%nat)) dmask)
  = list_sum (map (count_true (fun v => (v =? 0)%Z)) dmask).
Proof.
  unfold sum2. rewrite map_map. apply list_sum_map_ext. intros r.
  now rewrite count_true_indicator.
Qed.

(** X2.  The four numbers returned by [dmask2ndets_perquad] add up to the
    number of pixels of the detector mask that are 0, the enabled
    detectors. *)
Theorem dmask2ndets_perquad_total (dmask : list (list Z)) :
  list_sum (dmask2ndets_perquad dmask)
  = list_sum (map (count_true (fun v => (v =? 0)%Z)) dmask).
Proof.
  unfold dmask2ndets_perquad.
  rewrite dpi2cnts_perquad_total_aux. apply sum2_indicator.
Qed.

(** ** Binning engine: shape, cells and errors *)

Lemma nth_error_combine_some {A B : Type} (l1 : list A) (l2 : list B)
  (i : nat) (a : A) (b : B) :
  nth_error l1 i = Some a -> nth_error l2 i = Some b ->
  nth_error (combine l1 l2) i = Some (a, b).
Proof.
  revert l2 i. induction l1 as [|x l1 IH]; intros [|y l2] [|i]; cbn;
    try discriminate.
  - now intros [= ->] [= ->].
  - apply IH.
Qed.

Lemma mapM_none {A B : Type} (f : A -> option B) (l : list A) (a : A) :
  In a l -> f a = None -> mapM f l = None.
Proof.
  induction l as [|x l IH]; [intros []|]. intros [->|H] E; cbn [mapM].
  - now rewrite E.
  - destruct (f x); [|reflexivity]. now rewrite (IH H E).
Qed.

Lemma ev2quad_cnts_nth (q : nat) (l : list event) :
  (q < 4)%nat ->
  nth_error (ev2quad_cnts l) q = Some (count_true (in_quad q) l).
Proof.
  intros Hq. destruct q as [|[|[|[|q]]]]; try reflexivity. lia.
Qed.

(** X3.  When every bin has both its edges, [get_quad_cnts_tbins] returns a
    dense array of shape (time bins, energy bins, 4), and its entry
    [i, j, q] is the number of events with [tbins0[i] <= TIME < tbins1[i]]
    and [ebins0[j] <= ENERGY < ebins1[j]] that quadrant [q] selects; with no
    such event the entry is 0 and nothing is raised. *)
Theorem get_quad_cnts_tbins_cells (tbins0 tbins1 ebins0 ebins1 : list R)
  (evd : list event) :
  length tbins1 = length tbins0 ->
  length ebins1 = length ebins0 ->
  exists m,
    get_quad_cnts_tbins tbins0 tbins1 ebins0 ebins1 evd = Some m
    /\ length m = length tbins0
    /\ Forall (fun t => length t = length ebins0
                        /\ Forall (fun c => length c = 4%nat) t) m
    /\ forall i j q t0 t1 e0 e1,
         nth_error tbins0 i = Some t0 -> nth_error tbins1 i = Some t1 ->
         nth_error ebins0 j = Some e0 -> nth_error ebins1 j = Some e1 ->
         (q < 4)%nat ->
         exists t c,
           nth_error m i = Some t /\ nth_error t j = Some c
           /\ nth_error c q
              = Some (count_true
                        (fun e => in_bin t0 t1 (TIME e)
                                  && in_bin e0 e1 (ENERGY e)
                                  && in_quad q e) evd).
Proof.
  intros Lt Le. rewrite get_quad_cnts_tbins_pairs by assumption.
  eexists. split; [reflexivity|]. split; [|split].
  - rewrite length_map, length_combine. lia.
  - apply Forall_forall. intros t Ht.
    apply in_map_iff in Ht as (tb & <- & _). split.
    + rewrite length_map, length_combine. lia.
    + apply Forall_forall. intros c Hc.
      apply in_map_iff in Hc as (eb & <- & _). reflexivity.
  - intros i j q t0 t1 e0 e1 Ht0 Ht1 He0 He1 Hq.
    do 2 eexists. split; [|split].
    + rewrite nth_error_map,
        (nth_error_combine_some _ _ _ _ _ Ht0 Ht1). reflexivity.
    + rewrite nth_error_map,
        (nth_error_combine_some _ _ _ _ _ He0 He1). reflexivity.
    + cbn [fst snd]. rewrite ev2quad_cnts_nth by exact Hq.
      f_equal. rewrite !count_true_filter.
      unfold count_true. f_equal. apply filter_ext. intros e.
      now rewrite andb_assoc.
Qed.

Lemma get_quad_cnts_tbins_cells_witness :
  exists m,
    get_quad_cnts_tbins [0; 1] [1; 2] [14; 24] [24; 36.3]
      [mk_event 0.5 15 10 10] = Some m
    /\ length m = 2%nat.
Proof.
  destruct (get_quad_cnts_tbins_cells [0; 1] [1; 2] [14; 24] [24; 36.3]
              [mk_event 0.5 15 10 10] eq_refl eq_refl)
    as (m & E & L & _).
  exists m. split; [exact E|exact L].
Defined.

(** X4.  [get_quad_cnts_tbins] reads [tbins1[i]] for every index of
    [tbins0] and [ebins1[j]] for every index of [ebins0]: with fewer upper
    edges than lower edges of the time bins it raises IndexError, and so it
    does with fewer upper edges of the energy bins as soon as there is one
    time bin. *)
Theorem get_quad_cnts_tbins_missing_edge
  (tbins0 tbins1 ebins0 ebins1 : list R) (evd : list event) :
  (length tbins1 < length tbins0)%nat
  \/ (0 < length tbins0 <= length tbins1
      /\ length ebins1 < length ebins0)%nat ->
  get_quad_cnts_tbins tbins0 tbins1 ebins0 ebins1 evd = None.
Proof.
  unfold get_quad_cnts_tbins. intros [Ht|[Ht He]].
  - apply (mapM_none _ _ (length tbins1)); [apply in_seq; lia|].
    destruct (nth_error tbins0 (length tbins1)) as [t0|] eqn:E0;
      [|apply nth_error_None in E0; lia].
    cbn [bind].
    replace (nth_error tbins1 (length tbins1)) with (@None R)
      by (symmetry; apply nth_error_None; lia).
    reflexivity.
  - apply (mapM_none _ _ 0%nat); [apply in_seq; lia|].
    destruct (nth_error tbins0 0) as [t0|] eqn:E0;
      [|apply nth_error_None in E0; lia].
    destruct (nth_error tbins1 0) as [t1|] eqn:E1;
      [|apply nth_error_None in E1; lia].
    cbn [bind].
    apply (mapM_none _ _ (length ebins1)); [apply in_seq; lia|].
    destruct (nth_error ebins0 (length ebins1)) as [e0|] eqn:E2;
      [|apply nth_error_None in E2; lia].
    cbn [bind].
    replace (nth_error ebins1 (length ebins1)) with (@None R)
      by (symmetry; apply nth_error_None; lia).
    reflexivity.
Qed.

Lemma get_quad_cnts_tbins_missing_edge_witness :
  get_quad_cnts_tbins [0; 1] [1] [14] [24] [mk_event 0.5 15 10 10] = None.
Proof.
  apply (get_quad_cnts_tbins_missing_edge [0; 1] [1] [14] [24]
           [mk_event 0.5 15 10 10]).
  left. cbn. lia.
Defined.

(** ** Profiled likelihood: the chosen root and finite values *)

Lemma sqr_pos_of_nonzero (x : R) : x <> 0 -> 0 < x ^ 2.
Proof.
  intros H. destruct (Rtotal_order x 0) as [L|[E|G]]; [nra|contradiction|nra].
Qed.

(** The [+] root leaves a non-negative total rate [s + f], positive when
    there are counts and the uncertainty is not 0. *)
Lemma plus_root_total_rate (sdt odt d s o sigma : R) :
  0 <= d -> odt <> 0 ->
  let b := quad_b sdt odt s o sigma in
  let c := quad_c sdt odt d s o sigma in
  let f := (- b + sqrt (b ^ 2 - 4 * odt ^ 2 * c)) / (2 * odt ^ 2) in
  0 <= s + f /\ (0 < d -> sigma <> 0 -> 0 < s + f).
Proof.
  intros Hd Ho b c f.
  set (u := sdt * sigma ^ 2 - odt * o - odt ^ 2 * s).
  assert (HD : b ^ 2 - 4 * odt ^ 2 * c = u ^ 2 + 4 * (odt * sigma) ^ 2 * d)
    by (unfold b, c, u, quad_b, quad_c; ring).
  assert (Ha : 0 < odt ^ 2) by (apply sqr_pos_of_nonzero; exact Ho).
  assert (Hs2 : 0 <= (odt * sigma) ^ 2) by apply pow2_ge_0.
  assert (Hu2 : 0 <= u ^ 2) by apply pow2_ge_0.
  assert (Hsf : s + f = (- u + sqrt (u ^ 2 + 4 * (odt * sigma) ^ 2 * d))
                        / (2 * odt ^ 2)).
  { unfold f. rewrite HD. unfold b, u, quad_b. field. lra. }
  assert (Habs : sqrt (u ^ 2) = Rabs u)
    by (replace (u ^ 2) with (Rsqr u) by (unfold Rsqr; ring);
        apply sqrt_Rsqr_abs).
  rewrite Hsf. split.
  - apply Rmult_le_pos; [|left; apply Rinv_0_lt_compat; lra].
    assert (sqrt (u ^ 2) <= sqrt (u ^ 2 + 4 * (odt * sigma) ^ 2 * d))
      by (apply sqrt_le_1; nra).
    pose proof (Rle_abs u). lra.
  - intros Hd' Hsig. apply Rmult_lt_0_compat;
      [|apply Rinv_0_lt_compat; lra].
    assert (0 < (odt * sigma) ^ 2)
      by (apply sqr_pos_of_nonzero;
          apply Rmult_integral_contrapositive_currified; assumption).
    assert (sqrt (u ^ 2) < sqrt (u ^ 2 + 4 * (odt * sigma) ^ 2 * d))
      by (apply sqrt_lt_1; nra).
    pose proof (Rle_abs u). lra.
Qed.



Lemma fold_add_fin (l : list R) (a : R) :
  exists v, fold_left Np.add (map Fin l) (Fin a) = Fin v.
Proof.
  revert a; induction l as [|x l IH]; intros a; cbn [map fold_left].
  - now exists a.
  - apply IH.
Qed.

(** One term of the likelihood is a finite number for counts, exposures and
    uncertainty that are all positive. *)
Lemma profiled_llh_i_finite (sdt odt d s o sigma : R) :
  0 < d -> 0 < sdt -> odt <> 0 -> sigma <> 0 ->
  exists v,
    profiled_llh_i (Fin d) (Fin s) (Fin sdt) (Fin o) (Fin odt)
      (Np.square (Fin sigma))
      (profiled_f_i (Fin d) (Fin s) (Fin sdt) (Fin o) (Fin odt)
         (Np.square (Fin sigma))) = Fin v.
Proof.
  intros Hd Hsdt Ho Hsig.
  rewrite profiled_f_i_finite by lra.
  destruct (plus_root_total_rate sdt odt d s o sigma) as [_ Hpos];
    [lra|exact Ho|].
  specialize (Hpos Hd Hsig).
  set (f := (- quad_b sdt odt s o sigma
             + sqrt (quad_b sdt odt s o sigma ^ 2
                     - 4 * odt ^ 2 * quad_c sdt odt d s o sigma))
            / (2 * odt ^ 2)) in *.
  assert (0 < sdt * (s + f)) by now apply Rmult_lt_0_compat.
  assert (sigma * sigma <> 0) by now apply Rmult_integral_contrapositive.
  unfold profiled_llh_i, Np.square, Np.sub. cbn [Np.mul Np.add Np.neg].
  unfold Np.log.
  replace (Rltb (sdt * (s + f)) 0) with false
    by (symmetry; apply Rltb_false; lra).
  replace (Reqb (sdt * (s + f)) 0) with false
    by (symmetry; apply Reqb_false; lra).
  replace (Rltb d 0) with false by (symmetry; apply Rltb_false; lra).
  replace (Reqb d 0) with false by (symmetry; apply Reqb_false; lra).
  cbn [Np.mul Np.add Np.neg Np.div].
  replace (Reqb (2 * (sigma * sigma)) 0) with false
    by (symmetry; apply Reqb_false; lra).
  cbn [Np.add Np.neg Np.mul]. eexists. reflexivity.
Qed.

Lemma fold_add_finite (l : list npfloat) (a : npfloat) :
  Np.is_finite a -> Forall Np.is_finite l ->
  Np.is_finite (fold_left Np.add l a).
Proof.
  revert a; induction l as [|x l IH]; intros a Ha Hl; [exact Ha|].
  inversion Hl as [|? ? Hx Hl']; subst. cbn [fold_left]. apply IH; [|exact Hl'].
  destruct a, x; try contradiction. exact I.
Qed.

(** X6.  For finite arguments with counts [d > 0] and an uncertainty
    different from 0 in every energy bin, and exposures [sdt > 0] and
    [odt <> 0], [profiled_bkg_llh] returns a finite number: neither NaN nor
    an infinity. *)
Theorem profiled_bkg_llh_finite (d s o sigma : list R) (sdt odt : R) :
  length s = length d -> length o = length d -> length sigma = length d ->
  Forall (fun x => 0 < x) d ->
  Forall (fun x => x <> 0) sigma ->
  0 < sdt -> odt <> 0 ->
  exists v,
    profiled_bkg_llh (map Fin d) (map Fin s) (Fin sdt) (map Fin o)
      (Fin odt) (map Fin sigma) = Some (Fin v).
Proof.
  intros Ls Lo Le Hd Hsig Hsdt Ho.
  destruct (broadcast4_fin d s o sigma Ls Lo Le) as (bins & Eb & Lb & Nb).
  unfold profiled_bkg_llh, profiled_bkg_llh_ret_f. rewrite Eb.
  cbn [bind option_map fst].
  match goal with
  | |- exists v, Some ?x = Some (Fin v) =>
      assert (Hfin : Np.is_finite x);
      [|destruct x; try contradiction; eexists; reflexivity]
  end.
  apply fold_add_finite; [exact I|].
  apply Forall_forall. intros t Ht.
  apply in_map_iff in Ht as (bin & <- & Hbin).
  destruct (In_nth_error _ _ Hbin) as [i Hi].
  assert (Hlt : (i < length d)%nat)
    by (rewrite <- Lb; apply nth_error_Some; congruence).
  destruct (nth_error d i) as [di|] eqn:Di;
    [|apply nth_error_None in Di; lia].
  destruct (nth_error s i) as [si|] eqn:Si;
    [|apply nth_error_None in Si; lia].
  destruct (nth_error o i) as [oi|] eqn:Oi;
    [|apply nth_error_None in Oi; lia].
  destruct (nth_error sigma i) as [ei|] eqn:Ei;
    [|apply nth_error_None in Ei; lia].
  rewrite (Nb i di si oi ei Di Si Oi Ei) in Hi. injection Hi as <-.
  rewrite Forall_forall in Hd, Hsig.
  destruct (profiled_llh_i_finite sdt odt di si oi ei) as [v Hv];
    [eapply Hd, nth_error_In, Di|exact Hsdt|exact Ho
     |eapply Hsig, nth_error_In, Ei|].
  cbv zeta. rewrite Hv. exact I.
Qed.

Lemma profiled_bkg_llh_finite_witness :
  exists v,
    profiled_bkg_llh (map Fin [3; 1]) (map Fin [1; 2]) (Fin 0.128)
      (map Fin [100; 0]) (Fin 20) (map Fin [50; 5]) = Some (Fin v).
Proof.
  apply (profiled_bkg_llh_finite [3; 1] [1; 2] [100; 0] [50; 5] 0.128 20);
    try reflexivity; try lra; repeat constructor; lra.
Defined.

(** ** NaN templates and short parameter vectors *)

Lemma mul_nan_r (x : npfloat) : (x * NaN)%np = NaN.
Proof. now destruct x. Qed.

Lemma profiled_llh_i_nan_rate (d sdt o odt sig2 f : npfloat) :
  profiled_llh_i d NaN sdt o odt sig2 f = NaN.
Proof.
  unfold profiled_llh_i. cbn [Np.add]. now rewrite mul_nan_r.
Qed.

Lemma rates_llh_nan_entry
  (data sig_e_normed bkg_cnts bkg_err : list npfloat)
  (nsig sig_dt bkg_dt : npfloat) (i : nat) :
  length sig_e_normed = length data ->
  length bkg_cnts = length data ->
  length bkg_err = length data ->
  nth_error sig_e_normed i = Some NaN ->
  rates_llh data nsig sig_e_normed bkg_cnts bkg_err sig_dt bkg_dt
  = Some NaN.
Proof.
  intros Ls Lb Le Hi. unfold rates_llh.
  destruct (profiled_bkg_llh_terms data
              (map (fun c => (nsig / sig_dt * c)%np) sig_e_normed)
              bkg_cnts bkg_err sig_dt bkg_dt)
    as (terms & E & N); rewrite ?length_map; try assumption.
  rewrite E. f_equal. apply sum_nan_in.
  assert (Hlt : (i < length data)%nat)
    by (rewrite <- Ls; apply nth_error_Some; congruence).
  destruct (nth_error data i) as [d|] eqn:Di;
    [|apply nth_error_None in Di; lia].
  destruct (nth_error bkg_cnts i) as [o|] eqn:Oi;
    [|apply nth_error_None in Oi; lia].
  destruct (nth_error bkg_err i) as [e|] eqn:Ei;
    [|apply nth_error_None in Ei; lia].
  assert (Hs : nth_error (map (fun c => (nsig / sig_dt * c)%np) sig_e_normed)
                 i = Some NaN)
    by (rewrite nth_error_map, Hi; cbn; now rewrite mul_nan_r).
  specialize (N i d NaN o e Di Hs Oi Ei).
  rewrite profiled_llh_i_nan_rate in N. exact (nth_error_In _ _ N).
Qed.

(** X7.  A NaN in the spectral template reaches the likelihood: when the
    template [sig_e_normed] handed to [rates_llh] has a NaN entry, the value
    returned is NaN, for every amplitude, data and background. *)
Theorem rates_llh_nan_template
  (data sig_e_normed bkg_cnts bkg_err : list npfloat)
  (nsig sig_dt bkg_dt : npfloat) (i : nat) :
  length sig_e_normed = length data ->
  length bkg_cnts = length data ->
  length bkg_err = length data ->
  nth_error sig_e_normed i = Some NaN ->
  rates_llh data nsig sig_e_normed bkg_cnts bkg_err sig_dt bkg_dt
  = Some NaN.
Proof. apply rates_llh_nan_entry. Qed.

Lemma rates_llh_nan_template_witness :
  rates_llh [Fin 3; Fin 4] (Fin 10) [Fin 0.5; NaN] [Fin 100; Fin 90]
    [Fin 50; Fin 45] (Fin 0.128) (Fin 20) = Some NaN.
Proof.
  apply (rates_llh_nan_template [Fin 3; Fin 4] [Fin 0.5; NaN]
           [Fin 100; Fin 90] [Fin 50; Fin 45] (Fin 10) (Fin 0.128) (Fin 20)
           1); reflexivity.
Defined.

(** C7, counterexample.  With [theta[1]] = NaN neither [ind < -1] nor
    [ind > 3] holds, and the interpolator is called with NaN, which is not
    an index of [-1, 3]. *)
Lemma rate_llh2min_nan_index_queried :
  queries
    (rate_llh2min [Fin 1; NaN] [Fin 4; Fin 2] [Fin 100; Fin 100]
       [Fin 50; Fin 50] (Fin 0.128) (Fin 20)
       {| ind_ax := example_ax; cnt_ebins_norm_ind_mat := example_mat;
          ind0 := Fin 0; ind1 := Fin 2 |}) = [NaN]
  /\ (NaN <? Fin (-1))%np = false
  /\ (NaN >? Fin 3)%np = false
  /\ ~ (exists r, NaN = Fin r /\ -1 <= r <= 3).
Proof.
  repeat split; try reflexivity. intros (r & E & _). discriminate.
Qed.

(** X8.  An index that passes the test [-1 <= ind <= 3] of [rate_llh2min]
    but lies outside the open extent of the interpolator's grid is not
    penalised with +inf: the interpolator is called once, answers with NaNs,
    and [rate_llh2min] returns NaN without raising. *)
Theorem rate_llh2min_outside_grid
  (theta data bkg_cnts bkg_err : list npfloat) (sig_dt bkg_dt : npfloat)
  (cnorm_obj : cnts_norm_intp) (theta0 ind : npfloat) :
  py_index theta 0 = Some theta0 ->
  py_index theta 1 = Some ind ->
  (ind <? Fin (-1))%np || (ind >? Fin 3)%np = false ->
  (ind <=? ind0 cnorm_obj)%np || (ind >=? ind1 cnorm_obj)%np = true ->
  shape1 (cnt_ebins_norm_ind_mat cnorm_obj) = length data ->
  (0 < length data)%nat ->
  length bkg_cnts = length data ->
  length bkg_err = length data ->
  rate_llh2min theta data bkg_cnts bkg_err sig_dt bkg_dt cnorm_obj
  = {| queries := [ind]; value := Some NaN |}.
Proof.
  intros H0 H1 Hin Hout Hshape Hpos Lb Le.
  unfold rate_llh2min. rewrite H0, H1, Hin. f_equal.
  unfold cnts_norm_intp_call. rewrite Hout, scale_nan_ones, Hshape.
  cbn [bind].
  apply (rates_llh_nan_entry _ _ _ _ _ _ _ 0);
    rewrite ?repeat_length; try assumption; try reflexivity.
  destruct (length data); [lia|reflexivity].
Qed.

Lemma rate_llh2min_outside_grid_witness :
  rate_llh2min [Fin 1; Fin 2.5] [Fin 4; Fin 2] [Fin 100; Fin 100]
    [Fin 50; Fin 50] (Fin 0.128) (Fin 20)
    {| ind_ax := example_ax; cnt_ebins_norm_ind_mat := example_mat;
       ind0 := Fin 0; ind1 := Fin 2 |}
  = {| queries := [Fin 2.5]; value := Some NaN |}.
Proof.
  apply (rate_llh2min_outside_grid [Fin 1; Fin 2.5] [Fin 4; Fin 2]
           [Fin 100; Fin 100] [Fin 50; Fin 50] (Fin 0.128) (Fin 20)
           {| ind_ax := example_ax; cnt_ebins_norm_ind_mat := example_mat;
              ind0 := Fin 0; ind1 := Fin 2 |} (Fin 1) (Fin 2.5));
    try reflexivity.
  - unfold Np.gtb. cbn [Np.ltb]. Rcompare. reflexivity.
  - unfold Np.geb. cbn [Np.leb ind0 ind1]. Rcompare. reflexivity.
  - cbn. lia.
Defined.

(** X9.  [rate_llh2min] reads [theta[0]] and [theta[1]]: for a parameter
    vector with fewer than two entries it raises IndexError, before any call
    of the interpolator. *)
Theorem rate_llh2min_short_theta
  (theta data bkg_cnts bkg_err : list npfloat) (sig_dt bkg_dt : npfloat)
  (cnorm_obj : cnts_norm_intp) :
  (length theta < 2)%nat ->
  rate_llh2min theta data bkg_cnts bkg_err sig_dt bkg_dt cnorm_obj
  = {| queries := []; value := None |}.
Proof.
  intros H. unfold rate_llh2min.
  destruct theta as [|t0 [|t1 theta]]; cbn in H; try lia; reflexivity.
Qed.

Lemma rate_llh2min_short_theta_witness :
  rate_llh2min [Fin 1] [Fin 4] [Fin 100] [Fin 50] (Fin 0.128) (Fin 20)
    {| ind_ax := example_ax; cnt_ebins_norm_ind_mat := example_mat;
       ind0 := Fin 0; ind1 := Fin 2 |}
  = {| queries := []; value := None |}.
Proof.
  apply (rate_llh2min_short_theta [Fin 1] [Fin 4] [Fin 100] [Fin 50]
           (Fin 0.128) (Fin 20)).
  cbn. lia.
Defined.

(** ** Interpolation between grid points *)

(** What the scan of [np.argmin] returns on numbers: the first position of
    the smallest value. *)
Lemma argmin_from_spec (t : list R) (i bi : nat) (best : R) :
  let n := Npa.argmin_from (map Fin t) i (Fin best) bi in
  (n = bi /\ Forall (fun w => best <= w) t)
  \/ (exists j v,
        n = (i + j)%nat /\ nth_error t j = Some v /\ v < best
        /\ (forall j' w, nth_error t j' = Some w -> v <= w)
        /\ (forall j' w, nth_error t j' = Some w -> (j' < j)%nat -> v < w)).
Proof.
  revert i bi best. induction t as [|x t IH]; intros i bi best n.
  - left. split; [reflexivity|constructor].
  - unfold n. cbn [map Npa.argmin_from Npa.is_nanb orb Np.ltb].
    destruct (Rltb x best) eqn:C.
    + apply Rltb_true in C. right.
      destruct (IH (S i) i x) as [[En Hall]|(j & v & En & Hj & Hv & Hmin & Hfst)].
      * exists 0%nat, x. rewrite En. repeat split; [lia|exact C| |].
        -- intros [|j'] w Hw; cbn in Hw.
           ++ injection Hw as <-. lra.
           ++ rewrite Forall_forall in Hall.
              apply Hall. eapply nth_error_In, Hw.
        -- intros j' w _ Hlt. lia.
      * exists (S j), v. rewrite En. repeat split; [lia|exact Hj|lra| |].
        -- intros [|j'] w Hw; cbn in Hw.
           ++ injection Hw as <-. lra.
           ++ now apply (Hmin j').
        -- intros [|j'] w Hw Hlt; cbn in Hw.
           ++ injection Hw as <-. exact Hv.
           ++ apply (Hfst j' w Hw). lia.
    + apply Rltb_false in C.
      destruct (IH (S i) bi best)
        as [[En Hall]|(j & v & En & Hj & Hv & Hmin & Hfst)].
      * left. split; [exact En|]. constructor; assumption.
      * right. exists (S j), v. rewrite En.
        repeat split; [lia|exact Hj|exact Hv| |].
        -- intros [|j'] w Hw; cbn in Hw.
           ++ injection Hw as <-. lra.
           ++ now apply (Hmin j').
        -- intros [|j'] w Hw Hlt; cbn in Hw.
           ++ injection Hw as <-. lra.
           ++ apply (Hfst j' w Hw). lia.
Qed.

Lemma argmin_spec (t : list R) :
  t <> [] ->
  exists n v,
    Npa.argmin (map Fin t) = Some n /\ nth_error t n = Some v
    /\ (forall j w, nth_error t j = Some w -> v <= w)
    /\ (forall j w, nth_error t j = Some w -> (j < n)%nat -> v < w).
Proof.
  destruct t as [|x t]; [intros H; now destruct H|]. intros _.
  cbn [map Npa.argmin].
  destruct (argmin_from_spec t 1 0 x)
    as [[En Hall]|(j & v & En & Hj & Hv & Hmin & Hfst)].
  - exists 0%nat, x. rewrite En. repeat split.
    + intros [|j] w Hw; cbn in Hw.
      * injection Hw as <-. lra.
      * rewrite Forall_forall in Hall. apply Hall. eapply nth_error_In, Hw.
    + intros j w _ Hlt. lia.
  - exists (S j), v. rewrite En. repeat split; [exact Hj| |].
    + intros [|j'] w Hw; cbn in Hw.
      * injection Hw as <-. lra.
      * now apply (Hmin j').
    + intros [|j'] w Hw Hlt; cbn in Hw.
      * injection Hw as <-. exact Hv.
      * apply (Hfst j' w Hw). lia.
Qed.

Lemma sorted_nth_lt (g : list R) :
  StronglySorted Rlt g ->
  forall i j a b, (i < j)%nat ->
    nth_error g i = Some a -> nth_error g j = Some b -> a < b.
Proof.
  induction 1 as [|x l Hs IH Hx]; intros i j a b Hij Ha Hb.
  - destruct i; discriminate.
  - destruct j as [|j]; [lia|]. cbn in Hb. destruct i as [|i]; cbn in Ha.
    + injection Ha as <-. rewrite Forall_forall in Hx.
      apply Hx. eapply nth_error_In, Hb.
    + apply (IH i j); [lia|assumption|assumption].
Qed.

Lemma zip_with_ext {A B C : Type} (f h : A -> B -> C)
  (l1 : list A) (l2 : list B) :
  (forall a b, f a b = h a b) -> zip_with f l1 l2 = zip_with h l1 l2.
Proof.
  intros E. unfold zip_with. apply map_ext. intros ab. apply E.
Qed.

Lemma zip_with_swap {A B C : Type} (f : A -> B -> C)
  (l1 : list A) (l2 : list B) :
  zip_with f l1 l2 = zip_with (fun b a => f a b) l2 l1.
Proof.
  unfold zip_with. revert l2.
  induction l1 as [|a l1 IH]; intros [|b l2]; try reflexivity.
  cbn [combine map fst snd]. now rewrite IH.
Qed.

(** The weighted sum of two rows of numbers. *)
Lemma blend_fin (c0 c1 : R) (ra rb : list R) :
  zip_with Np.add (Npa.scale (Fin c0) (map Fin ra))
    (Npa.scale (Fin c1) (map Fin rb))
  = map Fin (zip_with (fun a b => c0 * a + c1 * b) ra rb).
Proof.
  unfold zip_with, Npa.scale. revert rb.
  induction ra as [|a ra IH]; intros [|b rb]; try reflexivity.
  cbn [map combine fst snd Np.mul Np.add]. f_equal. apply IH.
Qed.

(** Between two neighbouring points of an increasing grid the interpolator
    blends their two rows linearly, whichever of the two is the nearest. *)
Lemma call_between (mat : ndarray2) (g : list R) (k : nat) (x gk gk1 : R)
  (ra rb : list R) :
  StronglySorted Rlt g ->
  nth_error g k = Some gk -> nth_error g (S k) = Some gk1 ->
  gk < x < gk1 ->
  nth_error (rows mat) k = Some (map Fin ra) ->
  nth_error (rows mat) (S k) = Some (map Fin rb) ->
  exists self,
    cnts_norm_intp_init mat (map Fin g) = Some self
    /\ cnts_norm_intp_call self (Fin x)
       = Some (map Fin (zip_with (lerp ((x - gk) / (gk1 - gk))) ra rb)).
Proof.
  intros Hs Hk Hk1 [Hlo Hhi] Hra Hrb.
  destruct (min_fin_lower g gk (nth_error_In _ _ Hk)) as (lo & Elo & Hlo').
  destruct (max_fin_upper g gk1 (nth_error_In _ _ Hk1)) as (hi & Ehi & Hhi').
  unfold cnts_norm_intp_init. rewrite Elo, Ehi. cbn [bind].
  eexists. split; [reflexivity|].
  unfold cnts_norm_intp_call.
  cbn [ind0 ind1 ind_ax cnt_ebins_norm_ind_mat].
  unfold Np.geb. cbn [Np.leb].
  replace (Rleb x lo) with false by (symmetry; apply Rleb_false; lra).
  replace (Rleb hi x) with false by (symmetry; apply Rleb_false; lra).
  cbn [orb]. rewrite map_map.
  replace (map (fun r => Np.abs (Fin x - Fin r)) g)
    with (map Fin (map (fun r => Rabs (x + - r)) g))
    by (rewrite map_map; reflexivity).
  destruct (argmin_spec (map (fun r => Rabs (x + - r)) g))
    as (n & v & En & Hn & Hmin & Hfst).
  { destruct g; [destruct k; discriminate|discriminate]. }
  rewrite En. cbn [bind].
  rewrite nth_error_map in Hn.
  destruct (nth_error g n) as [gn|] eqn:Gn; [|discriminate].
  injection Hn as Hv.
  assert (Dk : Rabs (x + - gk) = x - gk) by (rewrite Rabs_pos_eq; lra).
  assert (Dk1 : Rabs (x + - gk1) = gk1 - x) by (rewrite Rabs_left; lra).
  assert (Hvk : v <= x - gk).
  { rewrite <- Dk. apply (Hmin k). now rewrite nth_error_map, Hk. }
  assert (Hvk1 : v <= gk1 - x).
  { rewrite <- Dk1. apply (Hmin (S k)). now rewrite nth_error_map, Hk1. }
  assert (Hcases : n = k \/ n = S k).
  { destruct (Nat.lt_trichotomy n k) as [L|[E|G]]; [|now left|].
    - pose proof (sorted_nth_lt g Hs n k gn gk L Gn Hk).
      rewrite Rabs_pos_eq in Hv by lra. lra.
    - destruct (Nat.eq_dec n (S k)) as [E|Ne]; [now right|].
      assert (L : (S k < n)%nat) by lia.
      pose proof (sorted_nth_lt g Hs (S k) n gk1 gn L Hk1 Gn).
      rewrite Rabs_left in Hv by lra. lra. }
  rewrite py_index_nat, nth_error_map, Gn. cbn [option_map bind].
  unfold Np.gtb. cbn [Np.ltb].
  destruct Hcases as [-> | ->].
  - (* the nearest point is the lower one *)
    assert (gn = gk) by congruence. subst gn.
    replace (Rltb gk x) with true by (symmetry; apply Rltb_true; lra).
    replace (Z.of_nat k + 1)%Z with (Z.of_nat (S k)) by lia.
    rewrite !py_index_nat, nth_error_map, Hk1, Hra, Hrb.
    cbn [option_map bind Np.sub Np.neg Np.add Np.abs Np.div].
    replace (Reqb (Rabs (gk + - gk1)) 0) with false
      by (symmetry; apply Reqb_false; rewrite Rabs_left; lra).
    cbn [Np.add Np.neg]. rewrite blend_fin. do 2 f_equal.
    apply zip_with_ext. intros a b. unfold lerp.
    rewrite Dk1, (Rabs_left (gk + - gk1)) by lra. field. lra.
  - (* the nearest point is the upper one *)
    assert (gn = gk1) by congruence. subst gn.
    replace (Rltb gk1 x) with false by (symmetry; apply Rltb_false; lra).
    replace (Z.of_nat (S k) - 1)%Z with (Z.of_nat k) by lia.
    rewrite !py_index_nat, nth_error_map, Hk, Hra, Hrb.
    cbn [option_map bind Np.sub Np.neg Np.add Np.abs Np.div].
    replace (Reqb (Rabs (gk1 + - gk)) 0) with false
      by (symmetry; apply Reqb_false; rewrite Rabs_pos_eq; lra).
    cbn [Np.add Np.neg]. rewrite blend_fin, zip_with_swap. do 2 f_equal.
    apply zip_with_ext. intros a b. unfold lerp.
    rewrite Dk, (Rabs_pos_eq (gk1 + - gk)) by lra. field. lra.
Qed.

(** X10.  On a strictly increasing grid, a query strictly between two
    neighbouring grid points [g[k] < x < g[k+1]] returns, entry by entry,
    the linear interpolation [(1 - t) * a + t * b] of the two stored rows,
    with [t = (x - g[k]) / (g[k+1] - g[k])], whichever of the two points is
    the nearest one. *)
Theorem cnts_norm_intp_linear (mat : ndarray2) (g : list R) (k : nat)
  (x gk gk1 : R) (ra rb : list R) :
  StronglySorted Rlt g ->
  nth_error g k = Some gk -> nth_error g (S k) = Some gk1 ->
  gk < x < gk1 ->
  nth_error (rows mat) k = Some (map Fin ra) ->
  nth_error (rows mat) (S k) = Some (map Fin rb) ->
  exists self,
    cnts_norm_intp_init mat (map Fin g) = Some self
    /\ cnts_norm_intp_call self (Fin x)
       = Some (map Fin (zip_with (lerp ((x - gk) / (gk1 - gk))) ra rb)).
Proof. apply call_between. Qed.

Lemma example_grid_sorted : StronglySorted Rlt [0; 1; 2].
Proof. repeat constructor; lra. Qed.

Lemma cnts_norm_intp_linear_witness :
  exists self,
    cnts_norm_intp_init example_mat (map Fin [0; 1; 2]) = Some self
    /\ cnts_norm_intp_call self (Fin 1.75)
       = Some (map Fin (zip_with (lerp ((1.75 - 1) / (2 - 1)))
                          [0.5; 0.5] [0.7; 0.3])).
Proof.
  apply (cnts_norm_intp_linear example_mat [0; 1; 2] 1 1.75 1 2
           [0.5; 0.5] [0.7; 0.3] example_grid_sorted eq_refl eq_refl).
  - lra.
  - reflexivity.
  - reflexivity.
Defined.

Lemma sum_fin (l : list R) : Np.sum (map Fin l) = Fin (Rsum l).
Proof.
  unfold Np.sum.
  assert (G : forall a, fold_left Np.add (map Fin l) (Fin a)
                        = Fin (a + Rsum l)).
  { induction l as [|x l IH]; intros a; cbn [map fold_left Rsum fold_right].
    - f_equal. ring.
    - cbn [Np.add]. rewrite IH. f_equal. unfold Rsum. ring. }
  rewrite G. f_equal. ring.
Qed.

Lemma Rsum_lerp (t : R) (ra rb : list R) :
  length rb = length ra ->
  Rsum (zip_with (lerp t) ra rb) = lerp t (Rsum ra) (Rsum rb).
Proof.
  unfold zip_with. revert rb.
  induction ra as [|a ra IH]; intros [|b rb] L; cbn in L; try discriminate.
  - unfold lerp. cbn. ring.
  - cbn [combine map fst snd Rsum fold_right] in *.
    fold (Rsum (map (fun ab => lerp t (fst ab) (snd ab)) (combine ra rb))).
    rewrite IH by lia. unfold lerp, Rsum. ring.
Qed.

(** X11.  Interpolation keeps the templates normalised: when the two stored
    rows on either side of the query have as many entries and each adds up
    to 1, the entries of the interpolated vector add up to 1. *)
Theorem cnts_norm_intp_normalised (mat : ndarray2) (g : list R) (k : nat)
  (x gk gk1 : R) (ra rb : list R) :
  StronglySorted Rlt g ->
  nth_error g k = Some gk -> nth_error g (S k) = Some gk1 ->
  gk < x < gk1 ->
  nth_error (rows mat) k = Some (map Fin ra) ->
  nth_error (rows mat) (S k) = Some (map Fin rb) ->
  length rb = length ra ->
  Rsum ra = 1 -> Rsum rb = 1 ->
  exists self cnts_norm,
    cnts_norm_intp_init mat (map Fin g) = Some self
    /\ cnts_norm_intp_call self (Fin x) = Some cnts_norm
    /\ length cnts_norm = length ra
    /\ Np.sum cnts_norm = Fin 1.
Proof.
  intros Hs Hk Hk1 Hx Hra Hrb L Sa Sb.
  destruct (call_between mat g k x gk gk1 ra rb Hs Hk Hk1 Hx Hra Hrb)
    as (self & Ei & Ec).
  exists self. eexists. split; [exact Ei|]. split; [exact Ec|]. split.
  - unfold zip_with. rewrite !length_map, length_combine. lia.
  - rewrite sum_fin, Rsum_lerp, Sa, Sb by exact L.
    f_equal. unfold lerp. ring.
Qed.

Lemma cnts_norm_intp_normalised_witness :
  exists self cnts_norm,
    cnts_norm_intp_init example_mat (map Fin [0; 1; 2]) = Some self
    /\ cnts_norm_intp_call self (Fin 0.25) = Some cnts_norm
    /\ length cnts_norm = length [0.2; 0.8]
    /\ Np.sum cnts_norm = Fin 1.
Proof.
  apply (cnts_norm_intp_normalised example_mat [0; 1; 2] 0 0.25 0 1
           [0.2; 0.8] [0.5; 0.5] example_grid_sorted eq_refl eq_refl).
  - lra.
  - reflexivity.
  - reflexivity.
  - reflexivity.
  - unfold Rsum. cbn. lra.
  - unfold Rsum. cbn. lra.
Defined.

(** ** NaN queries and the construction of the cache *)

Lemma scale_nan (r : list npfloat) :
  Npa.scale NaN r = repeat NaN (length r).
Proof.
  unfold Npa.scale. induction r as [|v r IH]; [reflexivity|].
  cbn [map length repeat]. rewrite IH. reflexivity.
Qed.

Lemma zip_add_nan (n : nat) :
  zip_with Np.add (repeat NaN n) (repeat NaN n) = repeat NaN n.
Proof.
  unfold zip_with. induction n as [|n IH]; [reflexivity|].
  cbn [repeat combine map fst snd Np.add]. now rewrite IH.
Qed.

Lemma py_index_last {A : Type} (l : list A) :
  l <> [] -> exists a, py_index l (-1) = Some a /\ In a l.
Proof.
  intros Hne. unfold py_index.
  assert (0 < length l)%nat by (destruct l; [contradiction|cbn; lia]).
  destruct (Z.leb_spec 0 (-1)); [lia|].
  destruct (Z.leb_spec (- Z.of_nat (length l)) (-1)); [|lia].
  destruct (nth_error l (Z.to_nat (Z.of_nat (length l) + -1))) as [a|] eqn:E.
  - exists a. split; [reflexivity|]. eapply nth_error_In, E.
  - apply nth_error_None in E. lia.
Qed.

Lemma argmin_nan_query (ax : list npfloat) :
  ax <> [] -> Npa.argmin (map (fun a => Np.abs (NaN - a)%np) ax) = Some 0%nat.
Proof.
  destruct ax as [|a [|b t]]; [intros H; now destruct H| |]; reflexivity.
Qed.

(** X12.  A NaN query passes both bounds tests of [__call__], since every
    comparison with NaN is false; the nearest index is then 0, its
    neighbour the last grid point, and the answer, for a matrix with at
    least one row, is a vector of NaNs with one entry per column: NaN
    propagates and no exception is raised. *)
Theorem cnts_norm_intp_nan_query (mat : ndarray2) (ax : list npfloat)
  (self : cnts_norm_intp) :
  ndarray2_wf mat ->
  (0 < shape0 mat)%nat ->
  cnts_norm_intp_init mat ax = Some self ->
  cnts_norm_intp_call self NaN = Some (repeat NaN (shape1 mat)).
Proof.
  intros [Hrows Hcols] Hpos Hinit. unfold cnts_norm_intp_init in Hinit.
  destruct ax as [|a0 ax]; [discriminate|].
  cbn [Npa.min Npa.max bind] in Hinit. injection Hinit as <-.
  unfold cnts_norm_intp_call.
  cbn [ind0 ind1 ind_ax cnt_ebins_norm_ind_mat].
  replace ((NaN <=? fold_left Npa.min2 ax a0)%np
           || (NaN >=? fold_left Npa.max2 ax a0)%np) with false
    by (unfold Np.geb; now destruct (fold_left Npa.max2 ax a0)).
  rewrite (argmin_nan_query (a0 :: ax)) by discriminate.
  cbn [bind]. rewrite py_index_nat. cbn [nth_error bind].
  replace (NaN >? a0)%np with false
    by (unfold Np.gtb; now destruct a0).
  change (Z.of_nat 0 - 1)%Z with (-1)%Z.
  destruct (py_index_last (a0 :: ax)) as (a1 & E1 & _); [discriminate|].
  rewrite E1. cbn [bind].
  destruct (rows mat) as [|r0 rs] eqn:Er; [cbn in Hrows; lia|].
  rewrite py_index_nat. cbn [nth_error bind].
  destruct (py_index_last (r0 :: rs)) as (r1 & E2 & Hin); [discriminate|].
  rewrite E2. cbn [bind]. f_equal.
  change (Np.abs (NaN - a1) / Np.abs (a0 - a1))%np with NaN.
  change (Fin 1 - NaN)%np with NaN.
  rewrite Forall_forall in Hcols.
  rewrite !scale_nan, (Hcols r0), (Hcols r1) by (assumption || now left).
  apply zip_add_nan.
Qed.

Lemma cnts_norm_intp_nan_query_witness :
  cnts_norm_intp_call
    {| ind_ax := example_ax; cnt_ebins_norm_ind_mat := example_mat;
       ind0 := Fin 0; ind1 := Fin 2 |} NaN
  = Some (repeat NaN (shape1 example_mat)).
Proof.
  apply (cnts_norm_intp_nan_query example_mat example_ax).
  - exact example_mat_wf.
  - cbn. lia.
  - unfold cnts_norm_intp_init.
    rewrite example_ax_min, example_ax_max. reflexivity.
Defined.

Lemma mapM_range {A B : Type} (h : A -> option B) (l : list A) :
  mapM (fun i => a <- nth_error l i ;; h a) (seq 0 (length l)) = mapM h l.
Proof.
  induction l as [|a l IH]; [reflexivity|].
  cbn [length seq mapM nth_error bind].
  destruct (h a) as [b|]; [|reflexivity].
  rewrite mapM_seq_shift. cbn [nth_error]. now rewrite IH.
Qed.

Lemma mapM_some_map {A B : Type} (h : A -> option B) (f : A -> B)
  (l : list A) :
  (forall a, In a l -> h a = Some (f a)) -> mapM h l = Some (map f l).
Proof.
  induction l as [|a l IH]; intros H; [reflexivity|].
  cbn [mapM map]. rewrite (H a) by now left.
  rewrite IH; [reflexivity|]. intros b Hb. apply H. now right.
Qed.

Lemma assign_row_same (nebins : nat) (v : list npfloat) :
  length v = nebins -> assign_row nebins v = Some v.
Proof.
  intros L. unfold assign_row. now rewrite (proj2 (Nat.eqb_eq _ _) L).
Qed.

(** The cache that [get_cnts_intp_obj] builds when every template has
    [nebins] entries. *)
Lemma get_cnts_intp_obj_built
  (get_cnt_ebins_normed : npfloat -> list npfloat) (ind_ax : list npfloat)
  (nebins : nat) :
  (forall a, In a ind_ax -> length (get_cnt_ebins_normed a) = nebins) ->
  get_cnts_intp_obj get_cnt_ebins_normed ind_ax nebins
  = cnts_norm_intp_init
      {| shape0 := length ind_ax; shape1 := nebins;
         rows := map get_cnt_ebins_normed ind_ax |} ind_ax.
Proof.
  intros H. unfold get_cnts_intp_obj.
  rewrite (mapM_range (fun a => assign_row nebins (get_cnt_ebins_normed a))).
  rewrite (mapM_some_map _ get_cnt_ebins_normed); [reflexivity|].
  intros a Ha. apply assign_row_same, H, Ha.
Qed.

(** X13.  For a non-empty grid and templates of [nebins] entries each,
    [get_cnts_intp_obj] returns an interpolator over that grid whose matrix
    has shape [(len(ind_ax), nebins)] and holds in row [i] the template
    computed for [ind_ax[i]]; its bounds are the minimum and the maximum of
    the grid. *)
Theorem get_cnts_intp_obj_cache
  (get_cnt_ebins_normed : npfloat -> list npfloat) (grid : list npfloat)
  (nebins : nat) :
  grid <> [] ->
  (forall a, In a grid -> length (get_cnt_ebins_normed a) = nebins) ->
  exists self,
    get_cnts_intp_obj get_cnt_ebins_normed grid nebins = Some self
    /\ ind_ax self = grid
    /\ ndarray2_wf (cnt_ebins_norm_ind_mat self)
    /\ shape0 (cnt_ebins_norm_ind_mat self) = length grid
    /\ shape1 (cnt_ebins_norm_ind_mat self) = nebins
    /\ (forall i a, nth_error grid i = Some a ->
          nth_error (rows (cnt_ebins_norm_ind_mat self)) i
          = Some (get_cnt_ebins_normed a))
    /\ Npa.min grid = Some (ind0 self)
    /\ Npa.max grid = Some (ind1 self).
Proof.
  intros Hne H. rewrite get_cnts_intp_obj_built by exact H.
  unfold cnts_norm_intp_init.
  destruct grid as [|a0 ax]; [contradiction|].
  cbn [Npa.min Npa.max bind]. eexists. split; [reflexivity|].
  cbn [ind_ax cnt_ebins_norm_ind_mat shape0 shape1 rows ind0 ind1].
  split; [reflexivity|]. split; [split|].
  - cbn [rows shape0]. apply length_map.
  - cbn [rows shape1]. apply Forall_forall. intros r Hr.
    apply in_map_iff in Hr as (a & <- & Ha). now apply H.
  - split; [reflexivity|]. split; [reflexivity|].
    split; [|split; reflexivity].
    intros i a Hi. now rewrite nth_error_map, Hi.
Qed.

Lemma get_cnts_intp_obj_cache_witness :
  exists self,
    get_cnts_intp_obj (fun a => [a; Fin 1]) example_ax 2 = Some self
    /\ ind_ax self = example_ax
    /\ ndarray2_wf (cnt_ebins_norm_ind_mat self)
    /\ shape0 (cnt_ebins_norm_ind_mat self) = length example_ax
    /\ shape1 (cnt_ebins_norm_ind_mat self) = 2%nat
    /\ (forall i a, nth_error example_ax i = Some a ->
          nth_error (rows (cnt_ebins_norm_ind_mat self)) i
          = Some [a; Fin 1])
    /\ Npa.min example_ax = Some (ind0 self)
    /\ Npa.max example_ax = Some (ind1 self).
Proof.
  apply (get_cnts_intp_obj_cache (fun a => [a; Fin 1]) example_ax 2).
  - discriminate.
  - reflexivity.
Defined.

(** X14.  [get_cnts_intp_obj] raises ValueError for an empty grid (the
    minimum of an empty array) and for a grid point whose template has
    neither [nebins] entries nor a single one, which cannot be stored in a
    row of the matrix. *)
Theorem get_cnts_intp_obj_errors
  (get_cnt_ebins_normed : npfloat -> list npfloat) (ind_ax : list npfloat)
  (nebins : nat) :
  ind_ax = []
  \/ (exists a, In a ind_ax
                /\ length (get_cnt_ebins_normed a) <> nebins
                /\ length (get_cnt_ebins_normed a) <> 1%nat) ->
  get_cnts_intp_obj get_cnt_ebins_normed ind_ax nebins = None.
Proof.
  intros [->|(a & Ha & Hn & H1)]; [reflexivity|].
  unfold get_cnts_intp_obj.
  rewrite (mapM_range (fun a => assign_row nebins (get_cnt_ebins_normed a))).
  rewrite (mapM_none _ _ a Ha); [reflexivity|].
  unfold assign_row.
  replace (length (get_cnt_ebins_normed a) =? nebins)%nat with false
    by (symmetry; now apply Nat.eqb_neq).
  destruct (get_cnt_ebins_normed a) as [|c [|c' v]]; try reflexivity.
  now destruct H1.
Qed.

Lemma get_cnts_intp_obj_errors_witness :
  get_cnts_intp_obj (fun a => [a; Fin 1; Fin 2]) example_ax 2 = None.
Proof.
  apply (get_cnts_intp_obj_errors (fun a => [a; Fin 1; Fin 2]) example_ax 2).
  right. exists (Fin 0). split; [now left|]. cbn. lia.
Defined.

(** X15.  The cache built by [get_cnts_intp_obj] on a strictly increasing
    grid answers a query between two neighbouring grid points with the
    linear interpolation of the two templates computed for these points at
    construction; the templates are not computed again. *)
Theorem get_cnts_intp_obj_interpolates
  (get_cnt_ebins_normed : npfloat -> list npfloat) (template : R -> list R)
  (g : list R) (nebins k : nat) (x gk gk1 : R) :
  (forall r, In r g ->
     get_cnt_ebins_normed (Fin r) = map Fin (template r)
     /\ length (template r) = nebins) ->
  StronglySorted Rlt g ->
  nth_error g k = Some gk -> nth_error g (S k) = Some gk1 ->
  gk < x < gk1 ->
  exists self,
    get_cnts_intp_obj get_cnt_ebins_normed (map Fin g) nebins = Some self
    /\ cnts_norm_intp_call self (Fin x)
       = Some (map Fin (zip_with (lerp ((x - gk) / (gk1 - gk)))
                          (template gk) (template gk1))).
Proof.
  intros Hf Hs Hk Hk1 Hx.
  rewrite get_cnts_intp_obj_built.
  - apply (call_between _ g k x gk gk1 (template gk) (template gk1)
             Hs Hk Hk1 Hx); cbn [rows]; rewrite map_map, nth_error_map.
    + rewrite Hk. cbn [option_map]. f_equal.
      apply Hf. eapply nth_error_In, Hk.
    + rewrite Hk1. cbn [option_map]. f_equal.
      apply Hf. eapply nth_error_In, Hk1.
  - intros a Ha. apply in_map_iff in Ha as (r & <- & Hr).
    destruct (Hf r Hr) as [-> L]. now rewrite length_map.
Qed.

Lemma get_cnts_intp_obj_interpolates_witness :
  let f := fun a => match a with
                    | Fin r => [Fin r; Fin (1 - r)]
                    | _ => [NaN; NaN]
                    end in
  exists self,
    get_cnts_intp_obj f (map Fin [0; 0.5; 1]) 2 = Some self
    /\ cnts_norm_intp_call self (Fin 0.25)
       = Some (map Fin (zip_with (lerp ((0.25 - 0) / (0.5 - 0)))
                          [0; 1 - 0] [0.5; 1 - 0.5])).
Proof.
  intros f.
  apply (get_cnts_intp_obj_interpolates f (fun r => [r; 1 - r])
           [0; 0.5; 1] 2 0 0.25 0 0.5).
  - intros r _. split; reflexivity.
  - repeat constructor; lra.
  - reflexivity.
  - reflexivity.
  - lra.
Defined.

(** ** Counts per energy-bin index *)

Lemma mask_select_count {A B : Type} (p : B -> bool) (f : A -> bool)
  (a : list A) (b : list B) :
  length b = length a ->
  count_true p (map fst (filter snd (combine b (map f a))))
  = count_true (fun q => f (fst q) && p (snd q)) (combine a b).
Proof.
  revert b. induction a as [|x a IH]; intros [|y b] L; cbn in L;
    try discriminate; [reflexivity|].
  cbn [map combine filter snd fst]. rewrite count_true_cons. cbn [fst snd].
  destruct (f x); cbn [map fst andb].
  - rewrite count_true_cons, IH by lia. reflexivity.
  - rewrite IH by lia. reflexivity.
Qed.

(** [get_cnts] in closed form, when every time bin has both its edges and
    every event has its energy-bin index. *)
Lemma get_cnts_pairs (ev : list event) (t_bins0 t_bins1 : list R)
  (ebin_inds : list Z) (nebins : nat) :
  length t_bins1 = length t_bins0 ->
  length ebin_inds = length ev ->
  get_cnts ev t_bins0 t_bins1 ebin_inds nebins
  = Some (map (fun tb =>
            map (fun j =>
              count_true
                (fun q => in_bin (fst tb) (snd tb) (TIME (fst q))
                          && (snd q =? Z.of_nat j)%Z)
                (combine ev ebin_inds))
              (seq 0 nebins))
            (combine t_bins0 t_bins1)).
Proof.
  intros Lt Le. unfold get_cnts.
  rewrite (mapM_range_pairs
             (fun t0 t1 =>
                ebin_inds_ <-
                  mask_select ebin_inds
                    (map (fun e => in_bin t0 t1 (TIME e)) ev) ;;
                Some (map (fun j =>
                             count_true (fun b => (b =? Z.of_nat j)%Z)
                               ebin_inds_)
                        (seq 0 nebins)))) by exact Lt.
  apply mapM_some_map. intros tb _. unfold mask_select.
  rewrite length_map, (proj2 (Nat.eqb_eq _ _) (eq_sym Le)). cbn [bind].
  f_equal. apply map_ext. intros j.
  now rewrite (mask_select_count
                 (fun b => (b =? Z.of_nat j)%Z)
                 (fun e => in_bin (fst tb) (snd tb) (TIME e))) by exact Le.
Qed.

(** X16.  When every time bin has both its edges and [ebin_inds] has one
    index per event, [get_cnts] returns an array of shape (time bins,
    [nebins]) whose entry [i, j] is the number of events with
    [t_bins0[i] <= TIME < t_bins1[i]] and energy-bin index [j]; an event
    whose index is negative or not below [nebins] is counted in no entry. *)
Theorem get_cnts_cells (ev : list event) (t_bins0 t_bins1 : list R)
  (ebin_inds : list Z) (nebins : nat) :
  length t_bins1 = length t_bins0 ->
  length ebin_inds = length ev ->
  exists cnts,
    get_cnts ev t_bins0 t_bins1 ebin_inds nebins = Some cnts
    /\ length cnts = length t_bins0
    /\ Forall (fun r => length r = nebins) cnts
    /\ forall i j t0 t1,
         nth_error t_bins0 i = Some t0 -> nth_error t_bins1 i = Some t1 ->
         (j < nebins)%nat ->
         exists r,
           nth_error cnts i = Some r
           /\ nth_error r j
              = Some (count_true
                        (fun q => in_bin t0 t1 (TIME (fst q))
                                  && (snd q =? Z.of_nat j)%Z)
                        (combine ev ebin_inds)).
Proof.
  intros Lt Le. rewrite get_cnts_pairs by assumption.
  eexists. split; [reflexivity|]. split; [|split].
  - rewrite length_map, length_combine. lia.
  - apply Forall_forall. intros r Hr.
    apply in_map_iff in Hr as (tb & <- & _).
    now rewrite length_map, length_seq.
  - intros i j t0 t1 H0 H1 Hj. eexists. split.
    + rewrite nth_error_map, (nth_error_combine_some _ _ _ _ _ H0 H1).
      reflexivity.
    + cbn [fst snd]. rewrite nth_error_map, nth_error_seq.
      destruct (Nat.ltb_spec j nebins); [reflexivity|lia].
Qed.

Lemma get_cnts_cells_witness :
  exists cnts,
    get_cnts [mk_event 0.5 15 10 10; mk_event 0.7 200 10 10] [0; 1] [1; 2]
      [0; 6]%Z 6 = Some cnts
    /\ length cnts = 2%nat.
Proof.
  destruct (get_cnts_cells
              [mk_event 0.5 15 10 10; mk_event 0.7 200 10 10] [0; 1] [1; 2]
              [0; 6]%Z 6 eq_refl eq_refl) as (cnts & E & L & _).
  exists cnts. split; [exact E|exact L].
Defined.

(** X17.  [get_cnts] selects [ebin_inds] with the time mask of the events:
    as soon as there is a time bin, an [ebin_inds] that is not as long as the
    event list raises IndexError; with no time bin the result is the empty
    array, whatever the other arguments are. *)
Theorem get_cnts_index_length (ev : list event) (t_bins0 t_bins1 : list R)
  (ebin_inds : list Z) (nebins : nat) :
  (0 < length t_bins0 <= length t_bins1)%nat ->
  length ebin_inds <> length ev ->
  get_cnts ev t_bins0 t_bins1 ebin_inds nebins = None
  /\ get_cnts ev [] t_bins1 ebin_inds nebins = Some [].
Proof.
  intros Ht Hne. split; [|reflexivity]. unfold get_cnts.
  apply (mapM_none _ _ 0%nat); [apply in_seq; lia|].
  destruct (nth_error t_bins0 0) as [t0|] eqn:E0;
    [|apply nth_error_None in E0; lia].
  destruct (nth_error t_bins1 0) as [t1|] eqn:E1;
    [|apply nth_error_None in E1; lia].
  cbn [bind]. unfold mask_select. rewrite length_map.
  replace (length ev =? length ebin_inds)%nat with false
    by (symmetry; apply Nat.eqb_neq; congruence).
  reflexivity.
Qed.

Lemma get_cnts_index_length_witness :
  get_cnts [mk_event 0.5 15 10 10] [0] [1] [0; 1]%Z 6 = None
  /\ get_cnts [mk_event 0.5 15 10 10] [] [1] [0; 1]%Z 6 = Some [].
Proof.
  apply (get_cnts_index_length [mk_event 0.5 15 10 10] [0] [1] [0; 1]%Z 6).
  - cbn. lia.
  - cbn. lia.
Defined.

(** ** Event selection against the energy bins of [main] *)

(** The energy bins of [main] tile the half-open range from 14 to 194.9. *)
Lemma main_ebins_containing (E : R) :
  bins_containing main_ebins0 main_ebins1 E
  = if Rleb 14 E && Rltb E 194.9 then 1%nat else 0%nat.
Proof.
  unfold main_ebins1, main_ebins0, bins_containing, count_true, in_bin.
  cbn [tl app combine filter fst snd].
  destruct (Rlt_dec E 14);
    [repeat (Rcompare; cbn [andb filter length]); reflexivity|].
  destruct (Rlt_dec E 24);
    [repeat (Rcompare; cbn [andb filter length]); reflexivity|].
  destruct (Rlt_dec E 36.3);
    [repeat (Rcompare; cbn [andb filter length]); reflexivity|].
  destruct (Rlt_dec E 55.4);
    [repeat (Rcompare; cbn [andb filter length]); reflexivity|].
  destruct (Rlt_dec E 80);
    [repeat (Rcompare; cbn [andb filter length]); reflexivity|].
  destruct (Rlt_dec E 120.7);
    [repeat (Rcompare; cbn [andb filter length]); reflexivity|].
  destruct (Rlt_dec E 194.9);
    repeat (Rcompare; cbn [andb filter length]); reflexivity.
Qed.

(** X18.  An event that passes the selection [bl_ev] of [main] lies in
    exactly one of the energy bins of [main], unless its energy is exactly
    194.9: the selection keeps [ENERGY <= 194.9] but the last bin is
    [120.7 <= ENERGY < 194.9], so such an event is selected and then counted
    in no energy bin. *)
Theorem bl_ev_energy_bin (good_t0 good_t1 : R) (e : event)
  (EVENT_FLAGS mask_val : Z) :
  bl_ev good_t0 good_t1 e EVENT_FLAGS mask_val = true ->
  bins_containing main_ebins0 main_ebins1 (ENERGY e)
  = if Reqb (ENERGY e) 194.9 then 0%nat else 1%nat.
Proof.
  unfold bl_ev. intros H.
  apply andb_prop in H as [H Hlo]. apply andb_prop in H as [_ Hhi].
  apply Rleb_true in Hlo, Hhi. rewrite main_ebins_containing.
  replace (Rleb 14 (ENERGY e)) with true by (symmetry; now apply Rleb_true).
  cbn [andb]. destruct (Req_dec_T (ENERGY e) 194.9) as [E|Ne].
  - rewrite E. Rcompare. reflexivity.
  - replace (Rltb (ENERGY e) 194.9) with true
      by (symmetry; apply Rltb_true; lra).
    replace (Reqb (ENERGY e) 194.9) with false
      by (symmetry; now apply Reqb_false).
    reflexivity.
Qed.

Lemma bl_ev_energy_bin_witness :
  bins_containing main_ebins0 main_ebins1 (ENERGY (mk_event 1 194.9 10 10))
  = if Reqb (ENERGY (mk_event 1 194.9 10 10)) 194.9 then 0%nat else 1%nat.
Proof.
  apply (bl_ev_energy_bin 0 20 (mk_event 1 194.9 10 10) 0 0).
  unfold bl_ev. cbn [TIME ENERGY]. Rcompare. reflexivity.
Defined.

(** ** Extent of the time bins and size of the duration classes *)

Lemma arange_in (start stop step v : R) :
  0 < step -> In v (arange start stop step) -> start <= v < stop.
Proof.
  intros Hstep Hv. unfold arange in Hv.
  apply in_map_iff in Hv as (i & <- & Hi). apply in_seq in Hi.
  set (x := (stop - start) / step) in *.
  pose proof (Zceil_bound x) as [Hb _].
  assert (Hz : (Z.of_nat i < Zceil x)%Z) by lia.
  assert (Hi' : INR i <= IZR (Zceil x) - 1).
  { rewrite INR_IZR_INZ. replace (IZR (Zceil x) - 1) with (IZR (Zceil x - 1))
      by (rewrite minus_IZR; reflexivity).
    apply IZR_le. lia. }
  assert (Hx : x * step = stop - start) by (unfold x; field; lra).
  pose proof (pos_INR i). split; [nra|]. nra.
Qed.

(** X19.  In every round the start [t] of a time bin lies in the window
    [trig_time - 15.008 <= t < trig_time + 15.008], its bin ends at
    [t + bin_size], which for the last bins is beyond the window, and the
    number of bins is [ceil (469 / 2^ii)]: 469, 235, 118, ... and not half
    the number of the round before. *)
Theorem tbins_round_window (trig_time : R) (ii : nat) (t : R) :
  let st := tbins_round trig_time ii in
  In t (t_bins0 st) ->
  trig_time - 15.008 <= t < trig_time + 15.008
  /\ In (t + bin_size st) (t_bins1 st)
  /\ length (t_bins0 st) = Z.to_nat (Zceil (469 / 2 ^ ii))
  /\ length (t_bins1 st) = length (t_bins0 st).
Proof.
  intros st. unfold st. rewrite tbins_round_make.
  cbn [make_tbins t_bins0 t_bins1 bin_size]. intros Ht.
  pose proof (pow2_pos ii) as Hp. split; [|split; [|split]].
  - apply in_map_iff in Ht as (a & <- & Ha).
    apply arange_in in Ha; [lra|nra].
  - apply in_map_iff. exists t. split; [reflexivity|exact Ht].
  - rewrite length_map. unfold arange. rewrite length_map, length_seq.
    replace ((15.008 - -15.008) / (0.064 * 2 ^ ii)) with (469 / 2 ^ ii)
      by (unfold Rdiv; rewrite Rinv_mult; lra).
    reflexivity.
  - now rewrite !length_map.
Qed.

Lemma first_round_first_bin :
  In (-15.008) (t_bins0 (tbins_round 0 0)).
Proof.
  pose proof (first_round_length 0) as L.
  assert (H0 : (0 < length (t_bins0 (tbins_round 0 0)))%nat) by lia.
  pose proof (nth_In _ 0 H0) as Hin.
  rewrite tbins_round_make in *.
  destruct (make_tbins_nth 0 (0.064 * 2 ^ 0) (0.128 * 2 ^ 0) 0 H0) as [E _].
  rewrite E in Hin. cbn [INR] in Hin.
  replace (-15.008 + 0 * (0.064 * 2 ^ 0) + 0) with (-15.008) in Hin by lra.
  exact Hin.
Qed.

Lemma tbins_round_window_witness :
  0 - 15.008 <= -15.008 < 0 + 15.008
  /\ In (-15.008 + bin_size (tbins_round 0 0)) (t_bins1 (tbins_round 0 0))
  /\ length (t_bins0 (tbins_round 0 0)) = Z.to_nat (Zceil (469 / 2 ^ 0))
  /\ length (t_bins1 (tbins_round 0 0)) = length (t_bins0 (tbins_round 0 0)).
Proof.
  apply (tbins_round_window 0 0 (-15.008) first_round_first_bin).
Defined.

Lemma count_true_none {A : Type} (p : A -> bool) (l : list A) :
  (forall a, In a l -> p a = false) -> count_true p l = 0%nat.
Proof.
  unfold count_true. induction l as [|a l IH]; intros H; [reflexivity|].
  cbn [filter]. rewrite (H a) by now left. apply IH.
  intros b Hb. apply H. now right.
Qed.

Lemma count_true_all {A : Type} (p : A -> bool) (l : list A) :
  (forall a, In a l -> p a = true) -> count_true p l = length l.
Proof.
  unfold count_true. induction l as [|a l IH]; intros H; [reflexivity|].
  cbn [filter length]. rewrite (H a) by now left. cbn [length]. f_equal.
  apply IH. intros b Hb. apply H. now right.
Qed.

Lemma count_true_flat_map {A B : Type} (p : B -> bool) (f : A -> list B)
  (l : list A) :
  count_true p (flat_map f l)
  = list_sum (map (fun a => count_true p (f a)) l).
Proof.
  unfold count_true. induction l as [|a l IH]; [reflexivity|].
  cbn [flat_map map]. rewrite list_sum_cons, filter_app, length_app.
  now rewrite IH.
Qed.

(** X20.  The loop of the trials correction runs over [ndbl + 1] duration
    classes, but the table holds the rounds 0 to [ndbl - 1] only: no row is
    in the class of duration [0.128 * 2^ndbl], and the last pass of the loop
    multiplies nothing. *)
Theorem last_class_empty (fit : fit_results) (trig_time : R) (ndbl : nat) :
  class_size ndbl (main_table fit trig_time ndbl) = 0%nat.
Proof.
  unfold class_size. apply count_true_none. intros r Hr.
  destruct (main_table_exposure fit trig_time ndbl r Hr) as (ii & Hii & ->).
  rewrite isclose_pow2. apply Nat.eqb_neq. lia.
Qed.

(** The rows of one detector subset in one round. *)
Lemma subset_table_rows (fit : fit_results) (trig_time : R) (ii dir : nat) :
  length (subset_table fit (tbins_round trig_time ii) ii dir)
  = length (t_bins0 (tbins_round trig_time ii))
  /\ forall r, In r (subset_table fit (tbins_round trig_time ii) ii dir) ->
               tstop r - tstart r = 0.128 * 2 ^ ii.
Proof.
  split.
  - unfold subset_table. rewrite length_map, !length_combine, length_seq.
    rewrite tbins_round_make. cbn [make_tbins t_bins0 t_bins1].
    rewrite !length_map. lia.
  - intros r H. unfold subset_table in H.
    apply in_map_iff in H as ([i [t0 t1]] & <- & H).
    apply in_combine_r in H. rewrite tbins_round_make in H.
    cbn [make_tbins t_bins0 t_bins1] in H.
    apply in_combine_map in H. subst t1.
    destruct (fit ii dir i) as [[[b s] n] p]. cbn [tstop tstart]. ring.
Qed.

Lemma list_sum_const {A : Type} (c : nat) (l : list A) :
  list_sum (map (fun _ => c) l) = (length l * c)%nat.
Proof.
  induction l as [|a l IH]; [reflexivity|].
  rewrite map_cons, list_sum_cons, IH. cbn [length]. lia.
Qed.

Lemma list_sum_single (f : nat -> nat) (ii s n : nat) :
  (forall i, i <> ii -> f i = 0%nat) ->
  list_sum (map f (seq s n))
  = if ((s <=? ii) && (ii <? s + n))%nat then f ii else 0%nat.
Proof.
  intros H. revert s. induction n as [|n IH]; intros s.
  - cbn [seq map list_sum fold_right].
    destruct (Nat.leb_spec s ii), (Nat.ltb_spec ii (s + 0)); cbn;
      try reflexivity; lia.
  - cbn [seq map]. rewrite list_sum_cons, IH.
    destruct (Nat.eq_dec s ii) as [->|Hne].
    + replace ((S ii <=? ii)%nat) with false
        by (symmetry; apply Nat.leb_gt; lia).
      replace ((ii <=? ii)%nat) with true
        by (symmetry; apply Nat.leb_le; lia).
      replace ((ii <? ii + S n)%nat) with true
        by (symmetry; apply Nat.ltb_lt; lia).
      cbn [andb]. lia.
    + rewrite (H s Hne).
      destruct (Nat.leb_spec (S s) ii), (Nat.ltb_spec ii (S s + n)),
        (Nat.leb_spec s ii), (Nat.ltb_spec ii (s + S n)); cbn;
        try reflexivity; lia.
Qed.

(** X21.  The number of rows in the duration class of a round [ii] of the
    table, the factor of the trials correction before the division by the
    time span, is nine times the number of time bins of that round: the
    rows of all nine detector subsets are counted, not the time bins. *)
Theorem class_size_all_subsets (fit : fit_results) (trig_time : R)
  (ndbl ii : nat) :
  (ii < ndbl)%nat ->
  class_size ii (main_table fit trig_time ndbl)
  = (9 * length (t_bins0 (tbins_round trig_time ii)))%nat.
Proof.
  intros Hii. unfold class_size, main_table.
  rewrite count_true_flat_map.
  rewrite (list_sum_single _ ii).
  - replace ((0 <=? ii)%nat && (ii <? 0 + ndbl)%nat) with true
      by (symmetry; apply andb_true_intro; split;
          [apply Nat.leb_le|apply Nat.ltb_lt]; lia).
    rewrite count_true_flat_map.
    rewrite (list_sum_map_ext _
               (fun _ => length (t_bins0 (tbins_round trig_time ii)))).
    + rewrite list_sum_const, length_seq. cbn [quad_dicts length]. lia.
    + intros dir.
      destruct (subset_table_rows fit trig_time ii dir) as [L Hexp].
      rewrite count_true_all; [exact L|].
      intros r Hr. rewrite (Hexp r Hr), isclose_pow2. apply Nat.eqb_refl.
  - intros i Hne. rewrite count_true_flat_map.
    rewrite (list_sum_map_ext _ (fun _ => 0%nat)).
    + rewrite list_sum_const. lia.
    + intros dir.
      destruct (subset_table_rows fit trig_time i dir) as [_ Hexp].
      apply count_true_none. intros r Hr.
      rewrite (Hexp r Hr), isclose_pow2. apply Nat.eqb_neq. congruence.
Qed.

Lemma class_size_all_subsets_witness :
  class_size 0 (main_table (fun _ _ _ => (Fin 2, Fin 1, Fin 10, Fin 1)) 0 1)
  = (9 * length (t_bins0 (tbins_round 0 0)))%nat.
Proof.
  apply (class_size_all_subsets (fun _ _ _ => (Fin 2, Fin 1, Fin 10, Fin 1))
           0 1 0).
  lia.
Defined.

(** ** The column of p-values *)

Lemma mask_mul_length (pvals : list npfloat) (bl : list bool) (c : npfloat) :
  length bl = length pvals -> length (mask_mul pvals bl c) = length pvals.
Proof.
  intros L. unfold mask_mul, zip_with.
  rewrite length_map, length_combine. lia.
Qed.

Lemma classes_loop_length (exps : list R) (c : nat -> npfloat)
  (classes : list nat) (pvals : list npfloat) :
  length exps = length pvals ->
  length
    (fold_left (fun pvals i =>
       mask_mul pvals (map (fun e => isclose e (0.128 * 2 ^ i)) exps) (c i))
       classes pvals)
  = length pvals.
Proof.
  revert pvals. induction classes as [|i classes IH]; intros pvals L;
    [reflexivity|].
  cbn [fold_left]. rewrite IH.
  - apply mask_mul_length. now rewrite length_map.
  - rewrite mask_mul_length; [exact L|]. now rewrite length_map.
Qed.

(** X22.  The trials correction returns one p-value per row of the table it
    is given, whatever the rows are, and raises ValueError on a table
    without rows, whose time span is the maximum of an empty column. *)
Theorem trials_correction_length (chi2_sf : npfloat -> nat -> npfloat)
  (ndbl : nat) (tab : list row) :
  trials_correction chi2_sf ndbl [] = None
  /\ (tab <> [] ->
      exists pvals,
        trials_correction chi2_sf ndbl tab = Some pvals
        /\ length pvals = length tab).
Proof.
  split; [reflexivity|]. intros Hne.
  destruct (Rlist_max (map tstop tab)) as [hi|] eqn:Ehi;
    [|destruct tab; [now destruct Hne|discriminate]].
  destruct (Rlist_min (map tstart tab)) as [lo|] eqn:Elo;
    [|destruct tab; [now destruct Hne|discriminate]].
  unfold trials_correction. rewrite Ehi, Elo. cbn [bind].
  eexists. split; [reflexivity|].
  set (exps := map (fun r => tstop r - tstart r) tab).
  rewrite length_map.
  rewrite (classes_loop_length exps
             (fun i =>
                Np.div
                  (Fin (INR (count_true (fun b : bool => b)
                               (map (fun e => isclose e (0.128 * 2 ^ i))
                                  exps))))
                  (Fin (hi - lo)))).
  - now rewrite !length_map.
  - unfold exps. now rewrite !length_map.
Qed.

Lemma trials_correction_length_witness :
  exists pvals,
    trials_correction (fun x _ => x) 1
      [mk_row 0 0.128 (Fin 2) (Fin 1) (Fin 10) (Fin 1)] = Some pvals
    /\ length pvals = 1%nat.
Proof.
  apply (trials_correction_length (fun x _ => x) 1
           [mk_row 0 0.128 (Fin 2) (Fin 1) (Fin 10) (Fin 1)]).
  discriminate.
Defined.

(** The p-value of a row whose exposure is the duration of one of the
    classes of the loop, in any table. *)
Lemma trials_correction_row (chi2_sf : npfloat -> nat -> npfloat)
  (ndbl : nat) (tab : list row) (k ii : nat) (r : row) (hi lo : R) :
  nth_error tab k = Some r ->
  (ii < ndbl + 1)%nat ->
  tstop r - tstart r = 0.128 * 2 ^ ii ->
  Rlist_max (map tstop tab) = Some hi ->
  Rlist_min (map tstart tab) = Some lo ->
  exists pvals,
    trials_correction chi2_sf ndbl tab = Some pvals
    /\ nth_error pvals k
       = Some (Fin 1
               - Np.exp
                   (- (chi2_sf (Fin 2 * (bkg_llh r - sig_llh r)) 1%nat
                       * (Fin (INR (class_size ii tab)) / Fin (hi - lo)))))%np.
Proof.
  intros Hk Hii Hexp Ehi Elo.
  unfold trials_correction. rewrite Ehi, Elo. cbn [bind].
  eexists. split; [reflexivity|].
  rewrite nth_error_map.
  set (exps := map (fun r => tstop r - tstart r) tab).
  rewrite (classes_loop_nth exps
             (fun i =>
                Np.div
                  (Fin (INR (count_true (fun b : bool => b)
                               (map (fun e => isclose e (0.128 * 2 ^ i))
                                  exps))))
                  (Fin (hi - lo)))
             k (tstop r - tstart r) (seq 0 (ndbl + 1))
             (map (fun x => chi2_sf (Fin 2 * x)%np 1%nat)
                (map (fun r => (bkg_llh r - sig_llh r)%np) tab))
             (chi2_sf (Fin 2 * (bkg_llh r - sig_llh r))%np 1%nat)).
  - rewrite Hexp, classes_loop_single.
    replace ((0 <=? ii)%nat && (ii <? 0 + (ndbl + 1))%nat) with true
      by (symmetry; apply andb_true_intro; split;
          [apply Nat.leb_le|apply Nat.ltb_lt]; lia).
    cbn [option_map]. unfold class_size, exps.
    rewrite !count_true_map. reflexivity.
  - unfold exps. now rewrite nth_error_map, Hk.
  - now rewrite !nth_error_map, Hk.
Qed.

Lemma fold_Rmax_ge (l : list R) (a : R) :
  a <= fold_left Rmax l a /\ forall x, In x l -> x <= fold_left Rmax l a.
Proof.
  revert a. induction l as [|y l IH]; intros a; cbn [fold_left].
  - split; [lra|intros x []].
  - destruct (IH (Rmax a y)) as [H1 H2].
    pose proof (Rmax_l a y). pose proof (Rmax_r a y). split; [lra|].
    intros x [<-|Hx]; [lra|now apply H2].
Qed.

Lemma fold_Rmin_le (l : list R) (a : R) :
  fold_left Rmin l a <= a /\ forall x, In x l -> fold_left Rmin l a <= x.
Proof.
  revert a. induction l as [|y l IH]; intros a; cbn [fold_left].
  - split; [lra|intros x []].
  - destruct (IH (Rmin a y)) as [H1 H2].
    pose proof (Rmin_l a y). pose proof (Rmin_r a y). split; [lra|].
    intros x [<-|Hx]; [lra|now apply H2].
Qed.

Lemma Rlist_max_ge (l : list R) (x : R) :
  In x l -> exists m, Rlist_max l = Some m /\ x <= m.
Proof.
  destruct l as [|a l]; [intros []|]. intros Hx. eexists.
  split; [reflexivity|]. destruct (fold_Rmax_ge l a) as [H1 H2].
  destruct Hx as [<-|Hx]; [exact H1|now apply H2].
Qed.

Lemma Rlist_min_le (l : list R) (x : R) :
  In x l -> exists m, Rlist_min l = Some m /\ m <= x.
Proof.
  destruct l as [|a l]; [intros []|]. intros Hx. eexists.
  split; [reflexivity|]. destruct (fold_Rmin_le l a) as [H1 H2].
  destruct Hx as [<-|Hx]; [exact H1|now apply H2].
Qed.

(** X23.  For a row of the table of [main] whose chi-squared tail
    probability is a number [v >= 0], the corrected p-value is a number
    between 0 and 1, however large the factor (rows in the class) / (time
    span) is: the time span is positive, and [1 - exp (- q)] maps every
    [q >= 0] into [0, 1]. *)
Theorem main_table_pval_range (chi2_sf : npfloat -> nat -> npfloat)
  (fit : fit_results) (trig_time : R) (ndbl k : nat) (r : row) (v : R) :
  let tab := main_table fit trig_time ndbl in
  nth_error tab k = Some r ->
  chi2_sf (Fin 2 * (bkg_llh r - sig_llh r))%np 1%nat = Fin v ->
  0 <= v ->
  exists pvals p,
    trials_correction chi2_sf ndbl tab = Some pvals
    /\ nth_error pvals k = Some (Fin p)
    /\ 0 <= p <= 1.
Proof.
  intros tab Hk Hv Hv0.
  pose proof (nth_error_In _ _ Hk) as Hin.
  destruct (main_table_exposure fit trig_time ndbl r Hin)
    as (ii & Hii & Hexp).
  fold tab in Hin.
  destruct (Rlist_max_ge (map tstop tab) (tstop r)) as (hi & Ehi & Hhi);
    [now apply in_map|].
  destruct (Rlist_min_le (map tstart tab) (tstart r)) as (lo & Elo & Hlo);
    [now apply in_map|].
  destruct (trials_correction_row chi2_sf ndbl tab k ii r hi lo Hk)
    as (pvals & E & Hp); [lia|exact Hexp|exact Ehi|exact Elo|].
  pose proof (pow2_pos ii) as Hpow.
  assert (Hdt : 0 < hi - lo) by lra.
  rewrite Hv in Hp. cbn [Np.div] in Hp.
  replace (Reqb (hi - lo) 0) with false in Hp
    by (symmetry; apply Reqb_false; lra).
  cbn [Np.mul Np.neg Np.exp Np.sub Np.add] in Hp.
  set (q := v * (INR (class_size ii tab) / (hi - lo))) in Hp.
  assert (Hq : 0 <= q).
  { unfold q. apply Rmult_le_pos; [exact Hv0|].
    apply Rmult_le_pos; [apply pos_INR|].
    left. now apply Rinv_0_lt_compat. }
  exists pvals, (1 + - exp (- q)). split; [exact E|]. split; [exact Hp|].
  pose proof (exp_pos (- q)).
  assert (exp (- q) <= 1).
  { destruct Hq as [Hq|<-].
    - left. rewrite <- exp_0. apply exp_increasing. lra.
    - rewrite Ropp_0, exp_0. lra. }
  lra.
Qed.

Lemma main_table_pval_range_witness :
  let fit : fit_results := fun _ _ _ => (Fin 2, Fin 1, Fin 10, Fin 1) in
  let chi2_sf := fun (x : npfloat) (_ : nat) => x in
  exists pvals p,
    trials_correction chi2_sf 1 (main_table fit 0 1) = Some pvals
    /\ nth_error pvals 0 = Some (Fin p)
    /\ 0 <= p <= 1.
Proof.
  intros fit chi2_sf.
  destruct (main_table_first fit 0 0) as [r Hr].
  assert (Hexp : In r (main_table fit 0 1)) by (eapply nth_error_In, Hr).
  assert (Hb : bkg_llh r = Fin 2 /\ sig_llh r = Fin 1).
  { unfold main_table in Hexp.
    apply in_flat_map in Hexp as (ii & _ & H).
    apply in_flat_map in H as (dir & _ & H).
    unfold subset_table in H.
    apply in_map_iff in H as ([i [t0 t1]] & <- & _). split; reflexivity. }
  destruct Hb as [Hb Hs].
  apply (main_table_pval_range chi2_sf fit 0 1 0 r (2 * (2 + - 1)) Hr).
  - unfold chi2_sf. rewrite Hb, Hs. reflexivity.
  - lra.
Defined.

(** ** Counts of the detector subsets *)

Lemma zip_with_map_same {A B C D : Type} (f : B -> C -> D) (g : A -> B)
  (h : A -> C) (l : list A) :
  zip_with f (map g l) (map h l) = map (fun x => f (g x) (h x)) l.
Proof.
  unfold zip_with. induction l as [|x l IH]; [reflexivity|].
  cbn [map combine fst snd]. now rewrite IH.
Qed.

(** The counts of a subset of quadrants, for a count array whose cells are
    the quadrant counts of the event lists [cell tb eb]. *)
Lemma subset_cnts_cells {T E : Type} (cell : T -> E -> list event)
  (tbs : list T) (ebs : list E) (quads : list nat) :
  Forall (fun q => (q < 4)%nat) quads ->
  subset_cnts quads
    (map (fun tb => map (fun eb => ev2quad_cnts (cell tb eb)) ebs) tbs)
  = Some (map (fun tb =>
            map (fun eb =>
                   list_sum (map (fun q => count_true (in_quad q) (cell tb eb))
                               quads)) ebs) tbs).
Proof.
  intros Hq. unfold subset_cnts.
  assert (Hrow : forall tb,
    mapM (fun cell0 =>
            qs <- mapM (fun q => nth_error cell0 q) quads ;;
            Some (list_sum qs))
      (map (fun eb => ev2quad_cnts (cell tb eb)) ebs)
    = Some (map (fun eb =>
                   list_sum (map (fun q => count_true (in_quad q) (cell tb eb))
                               quads)) ebs)).
  { intros tb. induction ebs as [|eb ebs IHe]; [reflexivity|].
    cbn [map mapM]. rewrite IHe.
    rewrite (mapM_some_map _ (fun q => count_true (in_quad q) (cell tb eb))).
    - reflexivity.
    - intros q Hin. rewrite Forall_forall in Hq.
      apply ev2quad_cnts_nth, Hq, Hin. }
  induction tbs as [|tb tbs IH]; [reflexivity|].
  cbn [map mapM]. rewrite Hrow, IH. reflexivity.
Qed.

Lemma quad_counts_off_midline (l : list event) :
  (count_true (in_quad 0) l + count_true (in_quad 1) l
   + count_true (in_quad 2) l + count_true (in_quad 3) l)%nat
  = count_true (fun e => negb (on_midline e)) l.
Proof.
  transitivity (list_sum (ev2quad_cnts l)).
  - unfold ev2quad_cnts. cbn [list_sum fold_right]. lia.
  - rewrite ev2quad_cnts_sum, count_true_indicator.
    apply list_sum_map_ext. intros a. rewrite quads_containing_midline.
    destruct (on_midline a); reflexivity.
Qed.

(** X24.  The counts of the detector subsets that [main] derives from the
    array of [get_quad_cnts_tbins]: in every time bin and energy bin the
    counts of the subset of all four quadrants are the counts of the left
    half plus those of the right half, also those of the top half plus those
    of the bottom half, and they are the number of events of the bin that
    lie on no midline. *)
Theorem subset_cnts_halves (tbins0 tbins1 ebins0 ebins1 : list R)
  (evd : list event) :
  length tbins1 = length tbins0 ->
  length ebins1 = length ebins0 ->
  exists m all left right top bottom,
    get_quad_cnts_tbins tbins0 tbins1 ebins0 ebins1 evd = Some m
    /\ subset_cnts [0; 1; 2; 3]%nat m = Some all
    /\ subset_cnts [0; 1]%nat m = Some left
    /\ subset_cnts [2; 3]%nat m = Some right
    /\ subset_cnts [1; 2]%nat m = Some top
    /\ subset_cnts [3; 0]%nat m = Some bottom
    /\ all = zip_with (zip_with Nat.add) left right
    /\ all = zip_with (zip_with Nat.add) top bottom
    /\ all = map (fun tb =>
               map (fun eb =>
                      count_true
                        (fun e => in_bin (fst tb) (snd tb) (TIME e)
                                  && in_bin (fst eb) (snd eb) (ENERGY e)
                                  && negb (on_midline e)) evd)
                 (combine ebins0 ebins1))
               (combine tbins0 tbins1).
Proof.
  intros Lt Le. rewrite get_quad_cnts_tbins_pairs by assumption.
  set (cell := fun (tb eb : R * R) =>
         filter (fun e => in_bin (fst eb) (snd eb) (ENERGY e))
           (filter (fun e => in_bin (fst tb) (snd tb) (TIME e)) evd)).
  exists (map (fun tb => map (fun eb => ev2quad_cnts (cell tb eb))
                          (combine ebins0 ebins1))
            (combine tbins0 tbins1)).
  do 5 eexists. split; [reflexivity|].
  split; [apply subset_cnts_cells; repeat constructor; lia|].
  split; [apply subset_cnts_cells; repeat constructor; lia|].
  split; [apply subset_cnts_cells; repeat constructor; lia|].
  split; [apply subset_cnts_cells; repeat constructor; lia|].
  split; [apply subset_cnts_cells; repeat constructor; lia|].
  split; [|split].
  - rewrite zip_with_map_same. apply map_ext. intros tb.
    rewrite zip_with_map_same. apply map_ext. intros eb.
    cbn [map list_sum fold_right]. lia.
  - rewrite zip_with_map_same. apply map_ext. intros tb.
    rewrite zip_with_map_same. apply map_ext. intros eb.
    cbn [map list_sum fold_right]. lia.
  - apply map_ext. intros tb. apply map_ext. intros eb.
    cbn [map list_sum fold_right].
    replace (count_true (in_quad 0) (cell tb eb)
             + (count_true (in_quad 1) (cell tb eb)
                + (count_true (in_quad 2) (cell tb eb)
                   + (count_true (in_quad 3) (cell tb eb) + 0))))%nat
      with (count_true (in_quad 0) (cell tb eb)
            + count_true (in_quad 1) (cell tb eb)
            + count_true (in_quad 2) (cell tb eb)
            + count_true (in_quad 3) (cell tb eb))%nat by lia.
    rewrite quad_counts_off_midline. unfold cell.
    rewrite !count_true_filter. unfold count_true. f_equal.
    apply filter_ext. intros e. now rewrite andb_assoc.
Qed.

Lemma subset_cnts_halves_witness :
  exists m all,
    get_quad_cnts_tbins [0; 1] [1; 2] [14; 24] [24; 36.3]
      [mk_event 0.5 15 10 10; mk_event 0.5 15 142 10] = Some m
    /\ subset_cnts [0; 1; 2; 3]%nat m = Some all.
Proof.
  destruct (subset_cnts_halves [0; 1] [1; 2] [14; 24] [24; 36.3]
              [mk_event 0.5 15 10 10; mk_event 0.5 15 142 10]
              eq_refl eq_refl)
    as (m & all & left & right & top & bottom & E & Ea & _).
  exists m, all. split; [exact E|exact Ea].
Defined.

(** ** The null likelihood and the total of the count array *)

Lemma null_rates (sig_dt : R) (template : list R) :
  sig_dt <> 0 ->
  map (fun c => (Fin 0 / Fin sig_dt * c)%np) (map Fin template)
  = map (fun _ => Fin 0) template.
Proof.
  intros H. rewrite map_map. apply map_ext. intros c. cbn [Np.div].
  replace (Reqb sig_dt 0) with false by (symmetry; now apply Reqb_false).
  cbn [Np.mul]. f_equal. unfold Rdiv. ring.
Qed.

(** X25.  With an amplitude of 0, as in the evaluation of the null
    hypothesis in [main], [rates_llh] does not depend on the spectral
    template, provided the template is made of numbers and the exposure
    [sig_dt] is not 0: two such templates of one length give the same
    value. *)
Theorem rates_llh_null_template (data bkg_cnts bkg_err : list npfloat)
  (template1 template2 : list R) (sig_dt : R) (bkg_dt : npfloat) :
  sig_dt <> 0 ->
  length template1 = length template2 ->
  rates_llh data (Fin 0) (map Fin template1) bkg_cnts bkg_err (Fin sig_dt)
    bkg_dt
  = rates_llh data (Fin 0) (map Fin template2) bkg_cnts bkg_err (Fin sig_dt)
      bkg_dt.
Proof.
  intros H L. unfold rates_llh. rewrite !null_rates by exact H.
  assert (E : map (fun _ : R => Fin 0) template1
              = map (fun _ : R => Fin 0) template2).
  { revert template2 L.
    induction template1 as [|a t1 IH]; intros [|b t2] L; cbn in L;
      try discriminate; [reflexivity|].
    cbn [map]. f_equal. apply IH. lia. }
  now rewrite E.
Qed.

Lemma rates_llh_null_template_witness :
  rates_llh [Fin 3; Fin 4] (Fin 0) (map Fin [0.2; 0.8]) [Fin 100; Fin 90]
    [Fin 50; Fin 45] (Fin 0.128) (Fin 20)
  = rates_llh [Fin 3; Fin 4] (Fin 0) (map Fin [0.5; 0.5]) [Fin 100; Fin 90]
      [Fin 50; Fin 45] (Fin 0.128) (Fin 20).
Proof.
  apply (rates_llh_null_template [Fin 3; Fin 4] [Fin 100; Fin 90]
           [Fin 50; Fin 45] [0.2; 0.8] [0.5; 0.5] 0.128 (Fin 20)).
  - lra.
  - reflexivity.
Defined.

(** X26.  The entries of the count array of [get_quad_cnts_tbins] add up to
    the sum, over the events, of [cells_counting]: (time bins that contain
    the event) x (energy bins that contain it) x (quadrants that select it);
    an event is
    counted once for each bin it lies in, so bins that overlap count it more
    than once and an event outside every bin is not counted. *)
Theorem get_quad_cnts_tbins_total (tbins0 tbins1 ebins0 ebins1 : list R)
  (evd : list event) :
  length tbins1 = length tbins0 ->
  length ebins1 = length ebins0 ->
  exists m,
    get_quad_cnts_tbins tbins0 tbins1 ebins0 ebins1 evd = Some m
    /\ sum3 m
       = list_sum (map (cells_counting tbins0 tbins1 ebins0 ebins1) evd).
Proof.
  intros Lt Le.
  destruct (get_quad_cnts_tbins tbins0 tbins1 ebins0 ebins1 evd) as [m|] eqn:E;
    [|rewrite get_quad_cnts_tbins_pairs in E by assumption; discriminate].
  exists m. split; [reflexivity|].
  exact (sum3_cells_counting _ _ _ _ _ _ Lt Le E).
Qed.

Lemma get_quad_cnts_tbins_total_witness :
  exists m,
    get_quad_cnts_tbins [0; 0.064] [0.128; 0.192] [14; 24] [24; 36.3]
      [mk_event 0.1 15 10 10] = Some m
    /\ sum3 m
       = list_sum
           (map (cells_counting [0; 0.064] [0.128; 0.192] [14; 24] [24; 36.3])
              [mk_event 0.1 15 10 10]).
Proof.
  apply (get_quad_cnts_tbins_total [0; 0.064] [0.128; 0.192] [14; 24]
           [24; 36.3] [mk_event 0.1 15 10 10]); reflexivity.
Defined.

